(** * Skin-lesion classifier (stream.py): a shallow embedding

    The development follows the single source file [stream.py]:

    - [download_model]       the cached weight-file resolution,
    - [HybridModel]          the two-backbone fusion network and [load_model],
    - [SkinDiseaseTransform] the resize / mirror / normalise pipeline,
    - [predict]              soft-max and the label-to-confidence dictionary,
    - [main]                 the top-1 decision gated at 0.95.

    Numbers are real numbers: the tensors of the program hold IEEE floats,
    and every statement below is about the arithmetic the floats approximate.
    Python exceptions are the [Raise] results of an error monad, a Python
    dict is an association list in insertion order, and what the program
    draws at random comes in as an argument. *)

From Stdlib Require Import Reals Lra Lia List String Ascii Bool Arith.
Import ListNotations.

Open Scope R_scope.
Open Scope string_scope.

(** ** Exceptions *)

Inductive exn : Type :=
| IndexError
| ValueError
| TypeError
| RuntimeError
| FetchError.

Inductive result (A : Type) : Type :=
| Ok (a : A)
| Raise (e : exn).

Arguments Ok {A} a.
Arguments Raise {A} e.

Definition bind {A B : Type} (r : result A) (k : A -> result B) : result B :=
  match r with
  | Ok a => k a
  | Raise e => Raise e
  end.

Notation "x <- c1 ;; c2" := (bind c1 (fun x => c2))
  (at level 61, c1 at next level, right associativity).

(** [l[i]] for a non-negative index: out of range is an [IndexError]. *)
Definition getitem {A : Type} (l : list A) (i : nat) : result A :=
  match nth_error l i with
  | Some x => Ok x
  | None => Raise IndexError
  end.

(** ** Python dictionaries with string keys

    Insertion order is kept; storing under a key that is present replaces
    the value where the key already stands. *)

Definition dict : Type := list (string * R).

Fixpoint dict_set (d : dict) (k : string) (v : R) : dict :=
  match d with
  | [] => [(k, v)]
  | (k', v') :: d' =>
      if String.eqb k' k then (k', v) :: d' else (k', v') :: dict_set d' k v
  end.

Definition keys (d : dict) : list string := map fst d.
Definition values (d : dict) : list R := map snd d.

Definition Rsum (l : list R) : R := fold_right Rplus 0 l.

(** ** [torch.nn.functional.softmax(outputs, dim=1)] *)

Definition exp_sum (v : list R) : R := Rsum (map exp v).

Definition softmax (v : list R) : list R :=
  map (fun x => exp x / exp_sum v) v.

Definition softmax_dim1 (outputs : list (list R)) : list (list R) :=
  map softmax outputs.

(** ** The dictionary comprehension of [predict]

    [{class_names[i]: float(probabilities[0][i])
      for i in range(len(class_names))}] *)

Fixpoint comprehension (class_names : list string)
    (probabilities : list (list R)) (indices : list nat) (acc : dict)
    : result dict :=
  match indices with
  | [] => Ok acc
  | i :: rest =>
      k <- getitem class_names i ;;
      row <- getitem probabilities 0 ;;
      p <- getitem row i ;;
      comprehension class_names probabilities rest (dict_set acc k p)
  end.

(** One step of the comprehension when the index is in range. *)
Definition store (class_names : list string) (row : list R) (d : dict)
    (i : nat) : dict :=
  dict_set d (nth i class_names "") (nth i row 0).

Definition confidence_map (class_names : list string)
    (probabilities : list (list R)) : result dict :=
  comprehension class_names probabilities
    (seq 0 (List.length class_names)) [].

(** The last two statements of [predict], from the logits on. *)
Definition predict_from_outputs (outputs : list (list R))
    (class_names : list string) : result dict :=
  confidence_map class_names (softmax_dim1 outputs).

(** ** The decision of [main]

    [max(confidences.items(), key=lambda x: x[1])] keeps the first item
    whose value no later item exceeds. *)

Fixpoint max_items (best : string * R) (items : dict) : string * R :=
  match items with
  | [] => best
  | it :: rest =>
      if Rlt_dec (snd best) (snd it) then max_items it rest
      else max_items best rest
  end.

Definition py_max (d : dict) : result (string * R) :=
  match d with
  | [] => Raise ValueError
  | it :: rest => Ok (max_items it rest)
  end.

(** [str.capitalize] on ASCII text. *)
Definition upper (c : ascii) : ascii :=
  let n := nat_of_ascii c in
  if (97 <=? n)%nat && (n <=? 122)%nat then ascii_of_nat (n - 32) else c.

Definition lower (c : ascii) : ascii :=
  let n := nat_of_ascii c in
  if (65 <=? n)%nat && (n <=? 90)%nat then ascii_of_nat (n + 32) else c.

Fixpoint string_map (f : ascii -> ascii) (s : string) : string :=
  match s with
  | EmptyString => EmptyString
  | String c s' => String (f c) (string_map f s')
  end.

Definition capitalize (s : string) : string :=
  match s with
  | EmptyString => EmptyString
  | String c s' => String (upper c) (string_map lower s')
  end.

Definition threshold : R := 95 / 100.

Definition Neant : string := "Néant".

Definition display_class (predicted_class : string) (max_confidence : R)
    : string :=
  if Rlt_dec max_confidence threshold then Neant
  else capitalize predicted_class.

(** Whether the advice block ([if max_confidence >= 0.95]) is shown. *)
Definition shows_advice (max_confidence : R) : bool :=
  if Rge_dec max_confidence threshold then true else false.

Record Diagnosis : Type := {
  predicted_class : string;
  max_confidence : R;
  displayed : string;
  advice : bool
}.

(** What the analysis branch of [main] derives from the dictionary. *)
Definition analyse (confidences : dict) : result Diagnosis :=
  top <- py_max confidences ;;
  Ok {| predicted_class := fst top;
        max_confidence := snd top;
        displayed := display_class (fst top) (snd top);
        advice := shows_advice (snd top) |}.

Definition class_names_main : list string := ["acne"; "eczema"].

(** ** Images (PIL)

    An image has a mode, a size (width, height) and its rows of pixels, a
    pixel being the list of its band values.  The modes are the 8-bit ones
    the JPEG and PNG decoders produce; the 1-bit mode and the 16-bit mode
    of grayscale PNG files are left out. *)

Inductive Mode : Type := L | LA | P | RGB | RGBA | CMYK.

Definition bands (m : Mode) : nat :=
  match m with
  | L => 1
  | LA => 2
  | P => 1
  | RGB => 3
  | RGBA => 4
  | CMYK => 4
  end.

Definition pixel : Type := list Z.

Record image : Type := {
  mode : Mode;
  size : nat * nat;
  data : list (list pixel)
}.

Definition width (img : image) : nat := fst (size img).
Definition height (img : image) : nat := snd (size img).

(** The rows agree with the size the image declares. *)
Definition wf_image (img : image) : Prop :=
  List.length (data img) = height img /\
  Forall (fun row => List.length row = width img) (data img).

Inductive Filter : Type := NEAREST | BILINEAR | BICUBIC.

(** A channels x rows x columns tensor. *)
Definition Tensor3 : Type := list (list (list R)).

Definition size_eqb (a b : nat * nat) : bool :=
  (fst a =? fst b)%nat && (snd a =? snd b)%nat.

Definition mapi {A B : Type} (f : nat -> A -> B) (l : list A) : list B :=
  map (fun ix => f (fst ix) (snd ix)) (combine (seq 0 (List.length l)) l).

Section Imaging.

(** The resampling kernels are the imaging library's: the value of the
    pixel at column [x], row [y] of the picture resampled to [sz]. *)
Variable resample : Filter -> image -> nat * nat -> nat -> nat -> pixel.

(** [Image.resize]: a picture that already has the size is copied, and
    a palette picture is resampled with NEAREST whatever was asked. *)
Definition resize (flt : Filter) (img : image) (sz : nat * nat) : image :=
  if size_eqb (size img) sz then img
  else
    let flt := match mode img with P => NEAREST | _ => flt end in
    {| mode := mode img;
       size := sz;
       data := map (fun y => map (fun x => resample flt img sz x y)
                                 (seq 0 (fst sz)))
                   (seq 0 (snd sz)) |}.

(** [F.hflip], that is [Image.transpose(FLIP_LEFT_RIGHT)]. *)
Definition hflip (img : image) : image :=
  {| mode := mode img; size := size img; data := map (@rev pixel) (data img) |}.

(** [RandomHorizontalFlip(p)]: [u] is the draw of [torch.rand(1)]. *)
Definition RandomHorizontalFlip (p u : R) (img : image) : image :=
  if Rlt_dec u p then hflip img else img.

(** [transforms.ToTensor] on an 8-bit picture: one channel per band,
    values scaled by 1/255. *)
Definition ToTensor (pic : image) : Tensor3 :=
  map (fun c => map (map (fun px : pixel => IZR (nth c px 0%Z) / 255))
                    (data pic))
      (seq 0 (bands (mode pic))).

Definition is_zero (x : R) : bool :=
  if Req_dec_T x 0 then true else false.

(** A statistics vector viewed as (-1, 1, 1) can be subtracted in place
    from a tensor when it has one entry or one entry per channel: an
    in-place operation cannot widen its target, so one channel against
    three entries raises just as four channels do. *)
Definition broadcasts (stat : list R) (t : Tensor3) : bool :=
  (List.length stat =? 1)%nat || (List.length stat =? List.length t)%nat.

Definition channel_stat (stat : list R) (c : nat) : R :=
  if (List.length stat =? 1)%nat then nth 0 stat 0 else nth c stat 0.

(** [transforms.Normalize(mean, std)]: [tensor.sub_(mean).div_(std)]. *)
Definition Normalize (mean std : list R) (t : Tensor3) : result Tensor3 :=
  if existsb is_zero std then Raise ValueError
  else if broadcasts mean t && broadcasts std t then
    Ok (mapi (fun c => map (map (fun x =>
               (x - channel_stat mean c) / channel_stat std c))) t)
  else Raise RuntimeError.

Definition imagenet_mean : list R := [485 / 1000; 456 / 1000; 406 / 1000].
Definition imagenet_std : list R := [229 / 1000; 224 / 1000; 225 / 1000].

(** [self.base_transform]: Resize((224, 224)), ToTensor, Normalize. *)
Definition base_transform (img : image) : result Tensor3 :=
  Normalize imagenet_mean imagenet_std
    (ToTensor (resize BILINEAR img (224, 224)%nat)).

(** [self.augmentation = transforms.RandomHorizontalFlip(p=1.0)] *)
Definition augmentation (u : R) (img : image) : image :=
  RandomHorizontalFlip 1 u img.

Record sample : Type := {
  original : image;
  resized : image;
  flipped : image;
  tensor : Tensor3
}.

(** [SkinDiseaseTransform.__call__] *)
Definition SkinDiseaseTransform_call (u : R) (img : image)
    (apply_augmentation : bool) : result sample :=
  let img_resized := resize BICUBIC img (224, 224)%nat in
  let img_flipped :=
    if apply_augmentation then augmentation u img_resized else img_resized in
  tensor_img <- base_transform img_flipped ;;
  Ok {| original := img;
        resized := img_resized;
        flipped := img_flipped;
        tensor := tensor_img |}.

End Imaging.

(** ** The network *)

Record Linear : Type := {
  in_features : nat;
  out_features : nat;
  weight : list (list R);
  bias : list R
}.

(** [nn.Linear(i, o)]: an [o] x [i] weight and a bias of [o] entries, with
    the initial values [w0] and [b0]. *)
Definition nn_Linear (i o : nat) (w0 : nat -> nat -> R) (b0 : nat -> R)
    : Linear :=
  {| in_features := i;
     out_features := o;
     weight := map (fun r => map (w0 r) (seq 0 i)) (seq 0 o);
     bias := map b0 (seq 0 o) |}.

Definition dot (a b : list R) : R :=
  Rsum (map (fun xy => fst xy * snd xy) (combine a b)).

(** [F.linear] on a batch: the rows must have [in_features] entries. *)
Definition Linear_forward (l : Linear) (x : list (list R))
    : result (list (list R)) :=
  if forallb (fun row => (List.length row =? in_features l)%nat) x then
    Ok (map (fun row => map (fun wb => dot row (fst wb) + snd wb)
                            (combine (weight l) (bias l))) x)
  else Raise RuntimeError.

Definition ReLU (x : list (list R)) : list (list R) :=
  map (map (Rmax 0)) x.

(** [nn.Dropout(p)]: in training the entries the mask drops become zero
    and the others are scaled by 1/(1-p); in evaluation it is the
    identity. *)
Definition Dropout (p : R) (training : bool) (keep : nat -> nat -> bool)
    (x : list (list R)) : list (list R) :=
  if training then
    mapi (fun r => mapi (fun c v => if keep r c then v / (1 - p) else 0)) x
  else x.

(** [torch.cat((x1, x2), dim=1)] on two batches of vectors. *)
Definition cat_dim1 (x1 x2 : list (list R)) : result (list (list R)) :=
  if (List.length x1 =? List.length x2)%nat then
    Ok (map (fun ab => (fst ab ++ snd ab)%list) (combine x1 x2))
  else Raise RuntimeError.

Definition has_shape (w : list (list R)) (rows cols : nat) : bool :=
  (List.length w =? rows)%nat &&
  forallb (fun row => (List.length row =? cols)%nat) w.

(** The stored tensors have the shapes the layer declares. *)
Definition wf_Linear (l : Linear) : Prop :=
  has_shape (weight l) (out_features l) (in_features l) = true /\
  List.length (bias l) = out_features l.

Section Network.

(** The backbones are torchvision's.  [BS] is what a backbone holds
    (parameters and running statistics), [Noise] what it draws at random
    in training; a backbone maps its state, the training flag, the noise
    and a batch of images to a batch of feature vectors and its next
    state. *)
Variables BS Noise : Type.
Variable densenet121 : BS -> bool -> Noise -> list Tensor3 -> list (list R) * BS.
Variable efficientnet_b0 : BS -> bool -> Noise -> list Tensor3 -> list (list R) * BS.
(** The states [pretrained=True] downloads. *)
Variables densenet121_pretrained efficientnet_b0_pretrained : BS.
(** Whether a stored backbone state has the names and shapes of a live one. *)
Variable compatible : BS -> BS -> bool.

Record HybridModel : Type := {
  densenet : BS;
  efficientnet : BS;
  fc_0 : Linear;
  fc_3 : Linear;
  training : bool
}.

(** Initial values of the head, drawn when the layers are built. *)
Record Init : Type := {
  w0 : nat -> nat -> R;
  b0 : nat -> R;
  w3 : nat -> nat -> R;
  b3 : nat -> R
}.

(** [HybridModel.__init__] *)
Definition HybridModel_init (ini : Init) (num_classes : nat) : HybridModel :=
  {| densenet := densenet121_pretrained;
     efficientnet := efficientnet_b0_pretrained;
     fc_0 := nn_Linear (1024 + 1280) 512 (w0 ini) (b0 ini);
     fc_3 := nn_Linear 512 num_classes (w3 ini) (b3 ini);
     training := true |}.

(** [self.fc]: Linear, ReLU, Dropout(0.5), Linear. *)
Definition fc (m : HybridModel) (keep : nat -> nat -> bool)
    (x : list (list R)) : result (list (list R)) :=
  h <- Linear_forward (fc_0 m) x ;;
  Linear_forward (fc_3 m) (Dropout (1 / 2) (training m) keep (ReLU h)).

(** [HybridModel.forward]: the logits (or the exception raised) and the
    model after the call. *)
Definition forward (m : HybridModel) (nz : Noise)
    (keep : nat -> nat -> bool) (x : list Tensor3)
    : result (list (list R)) * HybridModel :=
  let r1 := densenet121 (densenet m) (training m) nz x in
  let r2 := efficientnet_b0 (efficientnet m) (training m) nz x in
  let m' := {| densenet := snd r1;
               efficientnet := snd r2;
               fc_0 := fc_0 m;
               fc_3 := fc_3 m;
               training := training m |} in
  (c <- cat_dim1 (fst r1) (fst r2) ;; fc m keep c, m').

(** The content of a weight file. *)
Record StateDict : Type := {
  sd_densenet : BS;
  sd_efficientnet : BS;
  sd_fc_0_weight : list (list R);
  sd_fc_0_bias : list R;
  sd_fc_3_weight : list (list R);
  sd_fc_3_bias : list R
}.

Definition load_Linear (l : Linear) (w : list (list R)) (b : list R)
    : result Linear :=
  if has_shape w (out_features l) (in_features l)
     && (List.length b =? out_features l)%nat then
    Ok {| in_features := in_features l;
          out_features := out_features l;
          weight := w;
          bias := b |}
  else Raise RuntimeError.

(** [model.load_state_dict(sd)], strict. *)
Definition load_state_dict (m : HybridModel) (sd : StateDict)
    : result HybridModel :=
  if compatible (sd_densenet sd) (densenet m)
     && compatible (sd_efficientnet sd) (efficientnet m) then
    l0 <- load_Linear (fc_0 m) (sd_fc_0_weight sd) (sd_fc_0_bias sd) ;;
    l3 <- load_Linear (fc_3 m) (sd_fc_3_weight sd) (sd_fc_3_bias sd) ;;
    Ok {| densenet := sd_densenet sd;
          efficientnet := sd_efficientnet sd;
          fc_0 := l0;
          fc_3 := l3;
          training := training m |}
  else Raise RuntimeError.

(** [model.eval()] *)
Definition eval (m : HybridModel) : HybridModel :=
  {| densenet := densenet m;
     efficientnet := efficientnet m;
     fc_0 := fc_0 m;
     fc_3 := fc_3 m;
     training := false |}.

(** [load_model]: [file] is what [torch.load(model_path)] gives. *)
Definition load_model (ini : Init) (file : result StateDict)
    (num_classes : nat) : result HybridModel :=
  let model := HybridModel_init ini num_classes in
  sd <- file ;;
  model <- load_state_dict model sd ;;
  Ok (eval model).

(** The head a model built by [__init__] has, whatever was loaded since:
    fc.0 maps 2304 features to 512 and fc.3 maps 512 to [num_classes]. *)
Definition wf_model (m : HybridModel) (num_classes : nat) : Prop :=
  wf_Linear (fc_0 m) /\ in_features (fc_0 m) = 2304%nat /\
  out_features (fc_0 m) = 512%nat /\
  wf_Linear (fc_3 m) /\ in_features (fc_3 m) = 512%nat /\
  out_features (fc_3 m) = num_classes.

Variable resample : Filter -> image -> nat * nat -> nat -> nat -> pixel.

(** [predict]: [r] is the draw of [random.random()], [u] that of the
    flip.  [show_transformations] only renders and is left out. *)
Definition predict (r u : R) (nz : Noise) (keep : nat -> nat -> bool)
    (img : image) (model : HybridModel) (class_names : list string)
    : result dict * HybridModel :=
  match SkinDiseaseTransform_call resample u img
          (if Rgt_dec r (1 / 2) then true else false) with
  | Raise e => (Raise e, model)
  | Ok transformed =>
      let out := forward model nz keep [tensor transformed] in
      (outputs <- fst out ;; predict_from_outputs outputs class_names,
       snd out)
  end.

End Network.

Arguments densenet {BS}.
Arguments efficientnet {BS}.
Arguments fc_0 {BS}.
Arguments fc_3 {BS}.
Arguments training {BS}.
Arguments sd_densenet {BS}.
Arguments sd_efficientnet {BS}.
Arguments sd_fc_0_weight {BS}.
Arguments sd_fc_0_bias {BS}.
Arguments sd_fc_3_weight {BS}.
Arguments sd_fc_3_bias {BS}.
Arguments HybridModel_init {BS}.
Arguments fc {BS}.
Arguments forward {BS Noise}.
Arguments load_state_dict {BS}.
Arguments eval {BS}.
Arguments load_model {BS}.
Arguments wf_model {BS}.
Arguments predict {BS Noise}.

(** ** [download_model] *)

(** What one call of [gdown.download] does: it writes the output file, it
    returns without a file, or it raises. *)
Inductive fetch : Type := Written | Missed | Failed.

Record world : Type := {
  files : list string;       (* the paths that exist *)
  cached : option string;    (* the memo of [st.cache_resource] *)
  calls : nat;               (* calls of the remote transport *)
  downloads : nat            (* transfers that wrote the file *)
}.

Definition file_id : string := "1omDDYKCmISTVfFMwUegsfMAH1i30o9aL".
Definition url : string := "https://drive.google.com/uc?id=" ++ file_id.
Definition output : string := "hybrid_skin_disease_model1.pth".

Definition path_exists (w : world) (p : string) : bool :=
  existsb (String.eqb p) (files w).

(** The memo holds nothing or the path [download_model] returns. *)
Definition wf_world (w : world) : Prop :=
  cached w = None \/ cached w = Some output.

Section Download.

(** The remote side: the outcome of the n-th transport call. *)
Variable remote : nat -> fetch.

Definition gdown_download (w : world) (address out : string)
    : result unit * world :=
  match remote (calls w) with
  | Written =>
      (Ok tt, {| files := out :: files w; cached := cached w;
                 calls := S (calls w); downloads := S (downloads w) |})
  | Missed =>
      (Ok tt, {| files := files w; cached := cached w;
                 calls := S (calls w); downloads := downloads w |})
  | Failed =>
      (Raise FetchError,
       {| files := files w; cached := cached w;
          calls := S (calls w); downloads := downloads w |})
  end.

(** The body of [download_model]. *)
Definition download_model_body (w : world) : result string * world :=
  if negb (path_exists w output) then
    let r := gdown_download w url output in
    (_ <- fst r ;; Ok output, snd r)
  else (Ok output, w).

(** [@st.cache_resource]: a value returned is kept, an exception is not. *)
Definition download_model (w : world) : result string * world :=
  match cached w with
  | Some v => (Ok v, w)
  | None =>
      let r := download_model_body w in
      match fst r with
      | Ok v =>
          (Ok v, {| files := files (snd r); cached := Some v;
                    calls := calls (snd r); downloads := downloads (snd r) |})
      | Raise e => (Raise e, snd r)
      end
  end.

End Download.

(** ** Small instances used in the examples *)

(** Nearest-neighbour resampling. *)
Definition nearest (flt : Filter) (img : image) (sz : nat * nat) (x y : nat)
    : pixel :=
  nth (x * width img / fst sz) (nth (y * height img / snd sz) (data img) []) [].

Definition rgb_2x1 : image :=
  {| mode := RGB; size := (2, 1)%nat;
     data := [[[255; 0; 0]; [0; 0; 255]]]%Z |}.

Definition gray_2x1 : image :=
  {| mode := L; size := (2, 1)%nat; data := [[[10]; [200]]]%Z |}.

Definition rgba_1x1 : image :=
  {| mode := RGBA; size := (1, 1)%nat; data := [[[255; 255; 255; 128]]]%Z |}.

Definition palette_1x1 : image :=
  {| mode := P; size := (1, 1)%nat; data := [[[7]]]%Z |}.

(** A backbone without state that answers [n] zeros per image. *)
Definition flat_backbone (n : nat) (s : unit) (training : bool) (nz : unit)
    (x : list Tensor3) : list (list R) * unit :=
  (map (fun _ => repeat 0 n) x, s).

Definition zero_init : Init :=
  {| w0 := fun _ _ => 0; b0 := fun _ => 0; w3 := fun _ _ => 0; b3 := fun _ => 0 |}.

Definition zero_state_dict (num_classes : nat) : StateDict unit :=
  {| sd_densenet := tt;
     sd_efficientnet := tt;
     sd_fc_0_weight := weight (nn_Linear 2304 512 (fun _ _ => 0) (fun _ => 0));
     sd_fc_0_bias := bias (nn_Linear 2304 512 (fun _ _ => 0) (fun _ => 0));
     sd_fc_3_weight := weight (nn_Linear 512 num_classes (fun _ _ => 0) (fun _ => 0));
     sd_fc_3_bias := bias (nn_Linear 512 num_classes (fun _ _ => 0) (fun _ => 0)) |}.

Definition zero_model : HybridModel unit :=
  HybridModel_init tt tt zero_init 2.

Definition zero_loaded : HybridModel unit := eval zero_model.

Definition keep_all (r c : nat) : bool := true.

(** A process that has not resolved the weights yet, with no local file. *)
Definition fresh_world : world :=
  {| files := []; cached := None; calls := 0; downloads := 0 |}.

Definition always_failing (n : nat) : fetch := Failed.
Definition always_writing (n : nat) : fetch := Written.

(** [img_flipped] in [__call__]: the picture handed to [base_transform]. *)
Definition img_flipped_of
    (resample : Filter -> image -> nat * nat -> nat -> nat -> pixel)
    (u : R) (img : image) (aug : bool) : image :=
  if aug then augmentation u (resize resample BICUBIC img (224, 224)%nat)
  else resize resample BICUBIC img (224, 224)%nat.

(** ** The rest of the page

    What [show_transformations] draws, and what the analysis branch of
    [main] puts on the page around the decision. *)

Inductive widget : Type :=
| Picture (img : image) (caption : string)
| Heatmap (title : string) (channel : list (list R)).

(** The loop over [zip(axes, ['R', 'G', 'B'], titles)]: [tensor[i]] for the
    i-th title. *)
Fixpoint channel_plots (t : Tensor3) (i : nat) (titles : list string)
    : result (list widget) :=
  match titles with
  | [] => Ok []
  | title :: rest =>
      ch <- getitem t i ;;
      plots <- channel_plots t (S i) rest ;;
      Ok (Heatmap title ch :: plots)
  end.

Definition channel_titles : list string :=
  ["Canal Rouge"; "Canal Vert"; "Canal Bleu"].

(** [show_transformations] *)
Definition show_transformations (transform_results : sample)
    : result (list widget) :=
  let pictures :=
    [Picture (original transform_results) "Image originale";
     Picture (resized transform_results) "Redimensionnée (224x224)";
     Picture (flipped transform_results) "Retournement horizontal"] in
  plots <- channel_plots (tensor transform_results) 0 channel_titles ;;
  Ok (pictures ++ plots)%list.

(** [color = "green" if display_class == "Néant" else "red"] *)
Definition result_color (display : string) : string :=
  if String.eqb display Neant then "green" else "red".

Definition acne_advice : list string :=
  ["Nettoyez doucement la peau 2 fois par jour";
   "Évitez de toucher ou percer les boutons";
   "Consultez un dermatologue si l'acné persiste"].

Definition eczema_advice : list string :=
  ["Hydratez régulièrement votre peau";
   "Évitez les savons agressifs";
   "Consultez un médecin pour des traitements topiques"].

(** The block under [if max_confidence >= 0.95]: nothing below the
    threshold, otherwise the heading with the bullets of the predicted
    class (none for a class that is neither of the two). *)
Definition conseils (d : Diagnosis) : option (list string) :=
  if advice d then
    Some (if String.eqb (predicted_class d) "acne" then acne_advice
          else if String.eqb (predicted_class d) "eczema" then eczema_advice
          else [])
  else None.

Inductive page : Type :=
| Results (d : Diagnosis) (color : string) (tips : option (list string))
| ErrorMessage (e : exn).

Definition render (r : result Diagnosis) : page :=
  match r with
  | Ok d => Results d (result_color (displayed d)) (conseils d)
  | Raise e => ErrorMessage e
  end.

Section Page.

Variables BS Noise : Type.
Variable densenet121 : BS -> bool -> Noise -> list Tensor3 -> list (list R) * BS.
Variable efficientnet_b0 : BS -> bool -> Noise -> list Tensor3 -> list (list R) * BS.
Variable resample : Filter -> image -> nat * nat -> nat -> nat -> pixel.

(** The [try] block of [main] with its [except Exception]: the page and
    the model after the click. *)
Definition main_analysis (r u : R) (nz : Noise) (keep : nat -> nat -> bool)
    (img : image) (model : HybridModel BS) : page * HybridModel BS :=
  let p := predict densenet121 efficientnet_b0 resample r u nz keep img
             model class_names_main in
  (render (confidences <- fst p ;; analyse confidences), snd p).

End Page.

Arguments main_analysis {BS Noise}.

(** ** Successive calls of [download_model] *)

Fixpoint download_model_n (remote : nat -> fetch) (n : nat) (w : world)
    : list (result string) * world :=
  match n with
  | O => ([], w)
  | S n' =>
      let r := download_model remote w in
      let rest := download_model_n remote n' (snd r) in
      (fst r :: fst rest, snd rest)
  end.

(** A transport that fails twice and then writes the file. *)
Definition third_time_lucky (n : nat) : fetch :=
  match n with
  | 0%nat | 1%nat => Failed
  | _ => Written
  end.

(** * Properties *)

(** ** The error monad and indexing *)

Lemma getitem_lt {A : Type} (l : list A) (i : nat) (d : A) :
  (i < List.length l)%nat -> getitem l i = Ok (nth i l d).
Proof.
  intros Hi. unfold getitem.
  rewrite (nth_error_nth' l d Hi). reflexivity.
Qed.

Lemma getitem_ge {A : Type} (l : list A) (i : nat) :
  (List.length l <= i)%nat -> getitem l i = Raise IndexError.
Proof.
  intros Hi. unfold getitem.
  apply nth_error_None in Hi. rewrite Hi. reflexivity.
Qed.

(** ** Dictionaries *)

Lemma dict_set_fresh (d : dict) (k : string) (v : R) :
  ~ In k (keys d) -> dict_set d k v = (d ++ [(k, v)])%list.
Proof.
  induction d as [|[k' v'] d IH]; simpl; intros Hk.
  - reflexivity.
  - destruct (String.eqb_spec k' k) as [->|Hne].
    + exfalso. apply Hk. now left.
    + rewrite IH; [reflexivity|]. intros Hin. apply Hk. now right.
Qed.

Lemma dict_set_length (d : dict) (k : string) (v : R) :
  (List.length (dict_set d k v) <= S (List.length d))%nat.
Proof.
  induction d as [|[k' v'] d IH]; simpl.
  - lia.
  - destruct (String.eqb k' k); simpl; lia.
Qed.

Lemma keys_app (d1 d2 : dict) :
  keys (d1 ++ d2)%list = (keys d1 ++ keys d2)%list.
Proof. unfold keys. apply map_app. Qed.

(** ** The comprehension *)

(** As long as every index is in range the comprehension is a left fold of
    [store]. *)
Lemma comprehension_in_range (class_names : list string) (row : list R)
    (others : list (list R)) (indices : list nat) :
  forall acc,
    Forall (fun i => (i < List.length class_names)%nat /\
                     (i < List.length row)%nat) indices ->
    comprehension class_names (row :: others) indices acc
    = Ok (fold_left (store class_names row) indices acc).
Proof.
  induction indices as [|i rest IH]; intros acc Hall; simpl.
  - reflexivity.
  - inversion Hall as [|? ? [Hn Hr] Hrest]; subst.
    rewrite (getitem_lt class_names i "" Hn). simpl.
    rewrite (getitem_lt row i 0 Hr). simpl.
    now rewrite IH.
Qed.

(** An index beyond the row stops the comprehension with [IndexError]. *)
Lemma comprehension_out_of_range (class_names : list string) (row : list R)
    (others : list (list R)) (indices : list nat) :
  forall acc,
    Forall (fun i => (i < List.length class_names)%nat) indices ->
    Exists (fun i => (List.length row <= i)%nat) indices ->
    comprehension class_names (row :: others) indices acc = Raise IndexError.
Proof.
  induction indices as [|i rest IH]; intros acc Hall Hex; simpl.
  - inversion Hex.
  - inversion Hall as [|? ? Hn Hrest]; subst.
    rewrite (getitem_lt class_names i "" Hn). simpl.
    destruct (Nat.lt_ge_cases i (List.length row)) as [Hr|Hr].
    + rewrite (getitem_lt row i 0 Hr). simpl.
      apply IH; [assumption|].
      inversion Hex as [? ? Hi|? ? Hi]; subst; [lia|assumption].
    + now rewrite (getitem_ge row i Hr).
Qed.

Lemma fold_store_ext (class_names : list string) (row row' : list R)
    (indices : list nat) :
  forall acc,
    Forall (fun i => nth i row 0 = nth i row' 0) indices ->
    fold_left (store class_names row) indices acc
    = fold_left (store class_names row') indices acc.
Proof.
  induction indices as [|i rest IH]; intros acc Hall; simpl.
  - reflexivity.
  - inversion Hall as [|? ? Hi Hrest]; subst.
    unfold store at 2 4. rewrite Hi. now apply IH.
Qed.

Lemma fold_store_length (class_names : list string) (row : list R)
    (indices : list nat) :
  forall acc,
    (List.length (fold_left (store class_names row) indices acc)
     <= List.length indices + List.length acc)%nat.
Proof.
  induction indices as [|i rest IH]; intros acc; simpl.
  - lia.
  - specialize (IH (store class_names row acc i)).
    pose proof (dict_set_length acc (nth i class_names "") (nth i row 0)).
    unfold store in *. lia.
Qed.

(** With distinct labels every store appends: the fold zips the labels
    with the row. *)
Lemma fold_store_nodup (post : list string) :
  forall (pre : list string) (prow qrow : list R) (acc : dict),
    List.length pre = List.length prow ->
    List.length post = List.length qrow ->
    NoDup post ->
    (forall k, In k post -> ~ In k (keys acc)) ->
    fold_left (store (pre ++ post) (prow ++ qrow))
      (seq (List.length pre) (List.length post)) acc
    = (acc ++ combine post qrow)%list.
Proof.
  induction post as [|a post IH]; intros pre prow qrow acc Hpre Hpost Hnd Hfresh.
  - simpl. now rewrite app_nil_r.
  - destruct qrow as [|b qrow]; [discriminate|].
    simpl. unfold store at 2.
    assert (Ha : nth (List.length pre) (pre ++ a :: post) "" = a)
      by (rewrite app_nth2, Nat.sub_diag by lia; reflexivity).
    assert (Hb : nth (List.length pre) (prow ++ b :: qrow) 0 = b)
      by (rewrite Hpre, app_nth2, Nat.sub_diag by lia; reflexivity).
    rewrite Ha, Hb. clear Ha Hb.
    rewrite dict_set_fresh by (apply Hfresh; now left).
    inversion Hnd as [|? ? Hnotin Hnd']; subst.
    replace (pre ++ a :: post)%list with ((pre ++ [a]) ++ post)%list
      by (now rewrite <- app_assoc).
    replace (prow ++ b :: qrow)%list with ((prow ++ [b]) ++ qrow)%list
      by (now rewrite <- app_assoc).
    replace (S (List.length pre)) with (List.length (pre ++ [a])%list)
      by (rewrite length_app; simpl; lia).
    rewrite IH.
    + now rewrite <- app_assoc.
    + rewrite !length_app. simpl. lia.
    + simpl in Hpost. lia.
    + assumption.
    + intros k Hk Hin. rewrite keys_app in Hin.
      apply in_app_or in Hin. destruct Hin as [Hin|Hin].
      * apply (Hfresh k); [now right|assumption].
      * simpl in Hin. destruct Hin as [<-|[]]. contradiction.
Qed.

Lemma seq_lt (n : nat) (Q : nat -> Prop) :
  (forall i, (i < n)%nat -> Q i) -> Forall Q (seq 0 n).
Proof.
  intros H. apply Forall_forall. intros i Hi.
  apply in_seq in Hi. apply H. lia.
Qed.

Lemma confidence_map_nodup (class_names : list string) (row : list R)
    (others : list (list R)) :
  NoDup class_names ->
  List.length class_names = List.length row ->
  confidence_map class_names (row :: others) = Ok (combine class_names row).
Proof.
  intros Hnd Hlen. unfold confidence_map.
  rewrite comprehension_in_range by (apply seq_lt; intros; lia).
  f_equal.
  apply (fold_store_nodup class_names [] [] row []); auto.
Qed.

(** ** Soft-max *)

Lemma exp_sum_pos (v : list R) : v <> [] -> 0 < exp_sum v.
Proof.
  unfold exp_sum.
  destruct v as [|x v]; [congruence|]. intros _. simpl.
  assert (H : 0 <= Rsum (map exp v)).
  { induction v as [|y v IH]; simpl; [lra|].
    pose proof (exp_pos y). lra. }
  pose proof (exp_pos x). lra.
Qed.

Lemma Rsum_scale (c : R) (l : list R) :
  Rsum (map (fun x => x / c) l) = Rsum l / c.
Proof.
  induction l as [|x l IH]; simpl.
  - unfold Rdiv. now rewrite Rmult_0_l.
  - rewrite IH. unfold Rdiv. ring.
Qed.

Lemma softmax_sum (v : list R) : v <> [] -> Rsum (softmax v) = 1.
Proof.
  intros Hv. unfold softmax.
  rewrite <- (map_map exp (fun e => e / exp_sum v)).
  rewrite Rsum_scale. fold (exp_sum v).
  pose proof (exp_sum_pos v Hv).
  unfold Rdiv. apply Rinv_r. lra.
Qed.

Lemma softmax_length (v : list R) : List.length (softmax v) = List.length v.
Proof. unfold softmax. apply length_map. Qed.

Lemma softmax_pair (a b : R) :
  softmax [a; b] = [exp a / (exp a + exp b); exp b / (exp a + exp b)].
Proof.
  unfold softmax, exp_sum. simpl. now rewrite Rplus_0_r.
Qed.

Lemma keys_combine (l : list string) (row : list R) :
  List.length l = List.length row -> keys (combine l row) = l.
Proof.
  revert row. induction l as [|k l IH]; intros [|x row] Hlen;
    simpl in *; try reflexivity; try discriminate.
  f_equal. apply IH. lia.
Qed.

Lemma values_combine (l : list string) (row : list R) :
  List.length l = List.length row -> values (combine l row) = row.
Proof.
  revert row. induction l as [|k l IH]; intros [|x row] Hlen;
    simpl in *; try reflexivity; try discriminate.
  f_equal. apply IH. lia.
Qed.

(** ** The confidence map of [predict] *)

(** C1, as amended: for every non-empty list of pairwise distinct labels
    and every logits vector of the same length, the last two statements of
    [predict] return a dictionary whose keys are the labels, in order, whose
    values are the soft-max of the logits, and whose values sum to 1 (hence
    to 1 within 1e-6). *)
Theorem predict_confidences_sum (class_names : list string) (v : list R) :
  class_names <> [] ->
  NoDup class_names ->
  List.length class_names = List.length v ->
  exists d,
    predict_from_outputs [v] class_names = Ok d /\
    keys d = class_names /\
    values d = softmax v /\
    Rsum (values d) = 1 /\
    Rabs (Rsum (values d) - 1) <= 1 / 1000000.
Proof.
  intros Hne Hnd Hlen.
  assert (Hlen' : List.length class_names = List.length (softmax v))
    by now rewrite softmax_length.
  exists (combine class_names (softmax v)).
  assert (Hsum : Rsum (softmax v) = 1).
  { apply softmax_sum. intros ->. destruct class_names; [congruence|discriminate]. }
  repeat split.
  - unfold predict_from_outputs. simpl.
    now apply confidence_map_nodup.
  - now apply keys_combine.
  - now apply values_combine.
  - now rewrite values_combine.
  - rewrite values_combine, Hsum by assumption.
    replace (1 - 1) with 0 by ring. rewrite Rabs_R0. lra.
Qed.

Lemma predict_confidences_sum_witness :
  exists d,
    predict_from_outputs [[0; 0]] ["acne"; "eczema"] = Ok d /\
    keys d = ["acne"; "eczema"] /\
    values d = softmax [0; 0] /\
    Rsum (values d) = 1 /\
    Rabs (Rsum (values d) - 1) <= 1 / 1000000.
Proof.
  apply (predict_confidences_sum ["acne"; "eczema"] [0; 0]).
  - discriminate.
  - repeat constructor; simpl; intuition discriminate.
  - reflexivity.
Defined.

(** C1 as stated fails on a label list that repeats a label (the second
    store replaces the first, the values sum to 1/2) and on the empty label
    list (the dictionary is empty, the values sum to 0). *)
Lemma predict_confidences_sum_counterexample :
  (List.length ["acne"; "acne"] = List.length [0; 0] /\
   exists d, predict_from_outputs [[0; 0]] ["acne"; "acne"] = Ok d /\
             Rsum (values d) = 1 / 2 /\
             ~ Rabs (Rsum (values d) - 1) <= 1 / 1000000) /\
  (List.length (@nil string) = List.length (@nil R) /\
   exists d, predict_from_outputs [[]] [] = Ok d /\
             Rsum (values d) = 0 /\
             ~ Rabs (Rsum (values d) - 1) <= 1 / 1000000).
Proof.
  split; (split; [reflexivity|]).
  - exists [("acne", exp 0 / exp_sum [0; 0])].
    assert (Hs : Rsum (values [("acne", exp 0 / exp_sum [0; 0])]) = 1 / 2).
    { unfold exp_sum. simpl. rewrite exp_0. lra. }
    split; [reflexivity|]. split; [exact Hs|].
    rewrite Hs. unfold Rabs. destruct (Rcase_abs _); lra.
  - exists []. split; [reflexivity|]. split; [reflexivity|].
    simpl. unfold Rabs. destruct (Rcase_abs _); lra.
Qed.

(** C3, as amended: when there are more labels than probabilities the
    comprehension raises [IndexError]; when there are fewer it raises
    nothing: the dictionary is the one built from the leading
    [len(class_names)] probabilities, the others being dropped. *)
Theorem confidence_map_length_mismatch (class_names : list string)
    (row : list R) :
  ((List.length row < List.length class_names)%nat ->
   confidence_map class_names [row] = Raise IndexError) /\
  ((List.length class_names < List.length row)%nat ->
   exists d,
     confidence_map class_names [row] = Ok d /\
     confidence_map class_names [firstn (List.length class_names) row] = Ok d /\
     (List.length d <= List.length class_names)%nat).
Proof.
  split; intros Hlen; unfold confidence_map.
  - apply comprehension_out_of_range.
    + apply seq_lt. intros; lia.
    + apply Exists_exists. exists (List.length row). split; [|lia].
      apply in_seq. lia.
  - exists (fold_left (store class_names row) (seq 0 (List.length class_names)) []).
    repeat split.
    + apply comprehension_in_range. apply seq_lt. intros; lia.
    + rewrite comprehension_in_range.
      * f_equal. apply fold_store_ext. apply seq_lt. intros i Hi.
        now rewrite nth_firstn, (proj2 (Nat.ltb_lt _ _) Hi).
      * apply seq_lt. intros i Hi. rewrite length_firstn. lia.
    + pose proof (fold_store_length class_names row
                    (seq 0 (List.length class_names)) []) as H.
      rewrite length_seq in H. simpl in H. lia.
Qed.

Lemma confidence_map_length_mismatch_witness :
  confidence_map ["acne"; "eczema"] [[1]] = Raise IndexError /\
  exists d,
    confidence_map ["acne"] [[3 / 4; 1 / 4]] = Ok d /\
    confidence_map ["acne"] [firstn 1 [3 / 4; 1 / 4]] = Ok d /\
    (List.length d <= 1)%nat.
Proof.
  split.
  - apply (proj1 (confidence_map_length_mismatch ["acne"; "eczema"] [1])).
    simpl. lia.
  - apply (proj2 (confidence_map_length_mismatch ["acne"] [3 / 4; 1 / 4])).
    simpl. lia.
Defined.

(** C3 as stated fails when the label list is the shorter one: one label
    against two probabilities gives a one-entry dictionary and no error. *)
Lemma confidence_map_length_mismatch_counterexample :
  List.length ["acne"] <> List.length [3 / 4; 1 / 4] /\
  confidence_map ["acne"] [[3 / 4; 1 / 4]] = Ok [("acne", 3 / 4)].
Proof.
  split; [discriminate|reflexivity].
Qed.

(** ** The decision *)

Lemma max_items_spec (items : dict) :
  forall best,
    In (max_items best items) (best :: items) /\
    (forall it, In it (best :: items) -> snd it <= snd (max_items best items)).
Proof.
  induction items as [|x items IH]; intros best; simpl.
  - split; [now left|]. intros it [<-|[]]. lra.
  - destruct (Rlt_dec (snd best) (snd x)) as [Hlt|Hge].
    + destruct (IH x) as [Hin Hmax]. split.
      * right. exact Hin.
      * intros it [<-|Hit].
        -- specialize (Hmax x (or_introl eq_refl)). lra.
        -- now apply Hmax.
    + destruct (IH best) as [Hin Hmax]. split.
      * destruct Hin as [Hin|Hin]; [now left|right; now right].
      * intros it [<-|[<-|Hit]].
        -- apply Hmax. now left.
        -- specialize (Hmax best (or_introl eq_refl)). lra.
        -- apply Hmax. now right.
Qed.

(** C2: on a non-empty confidence map [main] finds an entry of greatest
    value; when that value is strictly below 0.95 it displays the fallback
    and gives no advice, and when it is 0.95 or more it displays the
    (capitalised) label of that entry. *)
Theorem display_threshold (confidences : dict) :
  confidences <> [] ->
  exists d,
    analyse confidences = Ok d /\
    In (predicted_class d, max_confidence d) confidences /\
    (forall k v, In (k, v) confidences -> v <= max_confidence d) /\
    (max_confidence d < 95 / 100 ->
     displayed d = Neant /\ advice d = false) /\
    (95 / 100 <= max_confidence d ->
     displayed d = capitalize (predicted_class d) /\ advice d = true).
Proof.
  destruct confidences as [|it rest]; [congruence|]. intros _.
  destruct (max_items_spec rest it) as [Hin Hmax].
  eexists. split; [reflexivity|]. simpl.
  split; [|split; [|split]].
  - now rewrite <- surjective_pairing.
  - intros k v Hkv. apply (Hmax (k, v)). exact Hkv.
  - intros Hlt. unfold display_class, shows_advice, threshold.
    destruct (Rlt_dec _ _); [|lra]. destruct (Rge_dec _ _); [lra|]. auto.
  - intros Hge. unfold display_class, shows_advice, threshold.
    destruct (Rlt_dec _ _); [lra|]. destruct (Rge_dec _ _); [|lra]. auto.
Qed.

Lemma display_threshold_witness :
  (exists d,
     analyse [("acne", 949999 / 1000000); ("eczema", 50001 / 1000000)] = Ok d /\
     displayed d = Neant) /\
  (exists d,
     analyse [("acne", 5 / 100); ("eczema", 95 / 100)] = Ok d /\
     displayed d = "Eczema").
Proof.
  split.
  - destruct (display_threshold
                [("acne", 949999 / 1000000); ("eczema", 50001 / 1000000)])
      as (d & Hd & Hin & _ & Hlow & _); [discriminate|].
    exists d. split; [exact Hd|]. apply Hlow.
    destruct Hin as [Hin|[Hin|[]]]; inversion Hin; lra.
  - destruct (display_threshold [("acne", 5 / 100); ("eczema", 95 / 100)])
      as (d & Hd & Hin & Hmax & _ & Hhigh); [discriminate|].
    exists d. split; [exact Hd|].
    specialize (Hmax "eczema" (95 / 100) (or_intror (or_introl eq_refl))).
    destruct (Hhigh Hmax) as [Hdisp _]. rewrite Hdisp.
    destruct Hin as [Hin|[Hin|[]]]; inversion Hin as [[Hk Hv]].
    + rewrite <- Hv in Hmax. lra.
    + reflexivity.
Defined.

(** C10: with the two labels of [main] and any two logits, [predict]'s
    dictionary has a greatest value of at least 1/2; the fallback is
    displayed exactly when that value is below 0.95, so every fallback
    diagnosis has its top confidence in [0.5, 0.95). *)
Theorem two_class_confidence_floor (a b : R) :
  exists conf d,
    predict_from_outputs [[a; b]] class_names_main = Ok conf /\
    analyse conf = Ok d /\
    1 / 2 <= max_confidence d /\
    (displayed d = Neant <-> max_confidence d < 95 / 100) /\
    (displayed d = Neant -> 1 / 2 <= max_confidence d < 95 / 100).
Proof.
  pose proof (exp_pos a) as Ha. pose proof (exp_pos b) as Hb.
  set (p1 := exp a / (exp a + exp b)).
  set (p2 := exp b / (exp a + exp b)).
  assert (Hsum : p1 + p2 = 1) by (unfold p1, p2; field; lra).
  exists [("acne", p1); ("eczema", p2)].
  assert (Hconf : predict_from_outputs [[a; b]] class_names_main
                  = Ok [("acne", p1); ("eczema", p2)]).
  { unfold predict_from_outputs. simpl. rewrite softmax_pair.
    rewrite confidence_map_nodup; [reflexivity| |reflexivity].
    repeat constructor; simpl; intuition discriminate. }
  eexists. split; [exact Hconf|]. split; [reflexivity|]. simpl.
  assert (Hdisp : forall k m, (k = "acne" \/ k = "eczema") ->
            (display_class k m = Neant <-> m < 95 / 100)).
  { intros k m Hk. unfold display_class, threshold.
    destruct (Rlt_dec m (95 / 100)); split; intros H; auto; try lra.
    destruct Hk as [-> | ->]; vm_compute in H; discriminate. }
  destruct (Rlt_dec p1 p2) as [Hlt|Hge]; simpl.
  - split; [lra|]. split; [apply Hdisp; auto|].
    intros H. apply Hdisp in H; auto. lra.
  - split; [lra|]. split; [apply Hdisp; auto|].
    intros H. apply Hdisp in H; auto. lra.
Qed.

(** ** The preprocessing transform *)

Lemma size_eqb_eq (a b : nat * nat) : size_eqb a b = true -> a = b.
Proof.
  destruct a as [a1 a2], b as [b1 b2]. unfold size_eqb. simpl.
  intros H. apply andb_prop in H. destruct H as [H1 H2].
  apply Nat.eqb_eq in H1, H2. now subst.
Qed.

Lemma mapi_length {A B : Type} (f : nat -> A -> B) (l : list A) :
  List.length (mapi f l) = List.length l.
Proof.
  unfold mapi. rewrite length_map, length_combine, length_seq.
  apply Nat.min_id.
Qed.

Section ImagingProperties.

Variable resample : Filter -> image -> nat * nat -> nat -> nat -> pixel.

Lemma resize_size (flt : Filter) (img : image) (sz : nat * nat) :
  size (resize resample flt img sz) = sz.
Proof.
  unfold resize. destruct (size_eqb (size img) sz) eqn:E.
  - now apply size_eqb_eq.
  - reflexivity.
Qed.

Lemma resize_mode (flt : Filter) (img : image) (sz : nat * nat) :
  mode (resize resample flt img sz) = mode img.
Proof. unfold resize. now destruct (size_eqb (size img) sz). Qed.

Lemma resize_wf (flt : Filter) (img : image) (sz : nat * nat) :
  wf_image img -> wf_image (resize resample flt img sz).
Proof.
  intros Hwf. unfold resize. destruct (size_eqb (size img) sz); [exact Hwf|].
  unfold wf_image, width, height. simpl. split.
  - now rewrite length_map, length_seq.
  - apply Forall_forall. intros row Hrow.
    apply in_map_iff in Hrow. destruct Hrow as (y & <- & _).
    now rewrite length_map, length_seq.
Qed.

Lemma hflip_involutive (img : image) : hflip (hflip img) = img.
Proof.
  destruct img as [m s d]. unfold hflip. simpl. f_equal.
  rewrite map_map. rewrite <- (map_id d) at 2.
  apply map_ext. intros row. apply rev_involutive.
Qed.

Lemma augmentation_mode (u : R) (img : image) :
  mode (augmentation u img) = mode img.
Proof.
  unfold augmentation, RandomHorizontalFlip.
  now destruct (Rlt_dec u 1).
Qed.

Lemma augmentation_flips (u : R) (img : image) :
  u < 1 -> augmentation u img = hflip img.
Proof.
  intros Hu. unfold augmentation, RandomHorizontalFlip.
  destruct (Rlt_dec u 1); [reflexivity|lra].
Qed.

Lemma ToTensor_channels (pic : image) :
  List.length (ToTensor pic) = bands (mode pic).
Proof. unfold ToTensor. now rewrite length_map, length_seq. Qed.

Lemma imagenet_std_nonzero : existsb is_zero imagenet_std = false.
Proof.
  unfold imagenet_std, is_zero. simpl.
  repeat (destruct (Req_dec_T _ 0) as [E|_]; [exfalso; lra|]).
  reflexivity.
Qed.

(** With the three ImageNet constants the normalisation goes through on
    three channels and on nothing else. *)
Lemma Normalize_imagenet (t : Tensor3) :
  Normalize imagenet_mean imagenet_std t
  = if (List.length t =? 3)%nat then
      Ok (mapi (fun c => map (map (fun x =>
            (x - nth c imagenet_mean 0) / nth c imagenet_std 0))) t)
    else Raise RuntimeError.
Proof.
  unfold Normalize. rewrite imagenet_std_nonzero.
  unfold broadcasts, channel_stat. simpl.
  destruct (List.length t) as [|[|[|[|n]]]]; reflexivity.
Qed.

Lemma base_transform_three_bands (img : image) :
  bands (mode img) = 3%nat ->
  exists t, base_transform resample img = Ok t /\ List.length t = 3%nat.
Proof.
  intros Hb. unfold base_transform. rewrite Normalize_imagenet.
  rewrite ToTensor_channels, resize_mode, Hb. simpl.
  eexists. split; [reflexivity|].
  now rewrite mapi_length, ToTensor_channels, resize_mode.
Qed.

Lemma base_transform_other_bands (img : image) :
  bands (mode img) <> 3%nat -> base_transform resample img = Raise RuntimeError.
Proof.
  intros Hb. unfold base_transform. rewrite Normalize_imagenet.
  rewrite ToTensor_channels, resize_mode.
  apply Nat.eqb_neq in Hb. now rewrite Hb.
Qed.

(** The picture [__call__] hands to [base_transform]. *)
Lemma flipped_mode (u : R) (img : image) (aug : bool) :
  mode (if aug then augmentation u (resize resample BICUBIC img (224, 224)%nat)
        else resize resample BICUBIC img (224, 224)%nat) = mode img.
Proof.
  destruct aug; [rewrite augmentation_mode|]; apply resize_mode.
Qed.

Lemma call_three_bands (u : R) (img : image) (aug : bool) :
  bands (mode img) = 3%nat ->
  exists t,
    List.length t = 3%nat /\
    SkinDiseaseTransform_call resample u img aug
    = Ok {| original := img;
            resized := resize resample BICUBIC img (224, 224)%nat;
            flipped :=
              if aug then
                augmentation u (resize resample BICUBIC img (224, 224)%nat)
              else resize resample BICUBIC img (224, 224)%nat;
            tensor := t |}.
Proof.
  intros Hb. unfold SkinDiseaseTransform_call.
  destruct (base_transform_three_bands
              (if aug then
                 augmentation u (resize resample BICUBIC img (224, 224)%nat)
               else resize resample BICUBIC img (224, 224)%nat))
    as (t & Ht & Hlen).
  - now rewrite flipped_mode.
  - exists t. split; [exact Hlen|]. now rewrite Ht.
Qed.

Lemma call_other_bands (u : R) (img : image) (aug : bool) :
  bands (mode img) <> 3%nat ->
  SkinDiseaseTransform_call resample u img aug = Raise RuntimeError.
Proof.
  intros Hb. unfold SkinDiseaseTransform_call.
  rewrite base_transform_other_bands; [reflexivity|].
  now rewrite flipped_mode.
Qed.

(** C5, as amended: for every picture in a three-band mode (RGB), of any
    size, the transform returns a sample whose resized picture is the
    direct resize of the input to (224, 224): its size is (224, 224) and
    it has 224 rows of 224 pixels. *)
Theorem transform_resized_224 (u : R) (img : image) (aug : bool) :
  wf_image img ->
  bands (mode img) = 3%nat ->
  exists s,
    SkinDiseaseTransform_call resample u img aug = Ok s /\
    resized s = resize resample BICUBIC img (224, 224)%nat /\
    size (resized s) = (224, 224)%nat /\
    List.length (data (resized s)) = 224%nat /\
    Forall (fun row => List.length row = 224%nat) (data (resized s)).
Proof.
  intros Hwf Hb.
  destruct (call_three_bands u img aug Hb) as (t & _ & Hcall).
  eexists. split; [exact Hcall|]. simpl.
  pose proof (resize_wf BICUBIC img (224, 224)%nat Hwf) as [Hrows Hcols].
  unfold width, height in *. rewrite resize_size in *.
  repeat split; assumption.
Qed.

(** C6, as amended: for every picture in a three-band mode (RGB), without
    augmentation the flipped picture is the resized one, and with
    augmentation it is the horizontal mirror of the resized one, whatever
    the draw: same mode and size, every row reversed, so that the pixel in
    column [x] of a row is the pixel that stood in column [width - 1 - x]
    (column [223 - x] for a well-formed input); mirroring twice gives the
    picture back. *)
Theorem transform_flip (u : R) (img : image) :
  0 <= u < 1 ->
  bands (mode img) = 3%nat ->
  (exists s, SkinDiseaseTransform_call resample u img false = Ok s /\
             flipped s = resized s) /\
  (exists s, SkinDiseaseTransform_call resample u img true = Ok s /\
             resized s = resize resample BICUBIC img (224, 224)%nat /\
             flipped s = hflip (resized s) /\
             hflip (flipped s) = resized s /\
             mode (flipped s) = mode (resized s) /\
             size (flipped s) = size (resized s) /\
             data (flipped s) = map (@rev pixel) (data (resized s)) /\
             (forall x y,
                (x < List.length (nth y (data (resized s)) []))%nat ->
                nth x (nth y (data (flipped s)) []) []
                = nth (List.length (nth y (data (resized s)) []) - S x)
                      (nth y (data (resized s)) []) []) /\
             (wf_image img ->
              forall x y, (x < 224)%nat -> (y < 224)%nat ->
                nth x (nth y (data (flipped s)) []) []
                = nth (223 - x) (nth y (data (resized s)) []) [])) /\
  (forall x : image, hflip (hflip x) = x).
Proof.
  intros [_ Hu] Hb. split; [|split].
  - destruct (call_three_bands u img false Hb) as (t & _ & Hcall).
    eexists. split; [exact Hcall|]. reflexivity.
  - destruct (call_three_bands u img true Hb) as (t & _ & Hcall).
    eexists. split; [exact Hcall|]. cbn [resized flipped].
    rewrite augmentation_flips by exact Hu.
    set (pic := resize resample BICUBIC img (224, 224)%nat).
    assert (Hpix : forall x y,
              (x < List.length (nth y (data pic) []))%nat ->
              nth x (nth y (data (hflip pic)) []) []
              = nth (List.length (nth y (data pic) []) - S x)
                    (nth y (data pic) []) []).
    { intros x y Hx. unfold hflip. cbn [data].
      change (@nil pixel) with (rev (@nil pixel)) at 1.
      rewrite (map_nth (@rev pixel)). now apply rev_nth. }
    split; [reflexivity|]. split; [reflexivity|].
    split; [apply hflip_involutive|].
    split; [reflexivity|]. split; [reflexivity|]. split; [reflexivity|].
    split; [exact Hpix|].
    intros Hwf x y Hx Hy. subst pic.
    pose proof (resize_wf BICUBIC img (224, 224)%nat Hwf) as [Hrows Hcols].
    unfold width, height in Hrows, Hcols.
    rewrite resize_size in Hrows, Hcols. simpl in Hrows, Hcols.
    assert (Hlen : List.length
                     (nth y (data (resize resample BICUBIC img (224, 224)%nat))
                        []) = 224%nat).
    { rewrite Forall_forall in Hcols. apply Hcols, nth_In. lia. }
    rewrite Hpix by lia. rewrite Hlen. reflexivity.
  - apply hflip_involutive.
Qed.

(** C7, as amended: the transform converts no mode.  The picture handed
    to the tensor conversion has the mode of the input and the tensor
    one channel per band; with three bands the transform returns a
    sample with a three-channel tensor, and with any other number of
    bands (grayscale, palette, RGBA, ...) the normalisation raises and
    the transform returns nothing. *)
Theorem transform_keeps_mode (u : R) (img : image) (aug : bool) :
  let img_resized := resize resample BICUBIC img (224, 224)%nat in
  let img_flipped :=
    if aug then augmentation u img_resized else img_resized in
  let pic := resize resample BILINEAR img_flipped (224, 224)%nat in
  mode pic = mode img /\
  List.length (ToTensor pic) = bands (mode img) /\
  (bands (mode img) = 3%nat ->
   exists s, SkinDiseaseTransform_call resample u img aug = Ok s /\
             List.length (tensor s) = 3%nat) /\
  (bands (mode img) <> 3%nat ->
   SkinDiseaseTransform_call resample u img aug = Raise RuntimeError).
Proof.
  intros img_resized img_flipped pic.
  assert (Hm : mode pic = mode img).
  { unfold pic, img_flipped, img_resized.
    rewrite resize_mode. apply flipped_mode. }
  split; [exact Hm|]. split; [|split].
  - now rewrite ToTensor_channels, Hm.
  - intros Hb. destruct (call_three_bands u img aug Hb) as (t & Hlen & Hcall).
    eexists. split; [exact Hcall|]. exact Hlen.
  - apply call_other_bands.
Qed.

End ImagingProperties.

Lemma rgb_2x1_wf : wf_image rgb_2x1.
Proof. split; [reflexivity|]. repeat constructor. Qed.

Lemma transform_resized_224_witness :
  wf_image rgb_2x1 /\
  bands (mode rgb_2x1) = 3%nat /\
  exists s,
    SkinDiseaseTransform_call nearest 0 rgb_2x1 false = Ok s /\
    resized s = resize nearest BICUBIC rgb_2x1 (224, 224)%nat /\
    size (resized s) = (224, 224)%nat /\
    List.length (data (resized s)) = 224%nat /\
    Forall (fun row => List.length row = 224%nat) (data (resized s)).
Proof.
  split; [exact rgb_2x1_wf|]. split; [reflexivity|].
  apply (transform_resized_224 nearest 0 rgb_2x1 false).
  - exact rgb_2x1_wf.
  - reflexivity.
Defined.

(** C5 as stated fails on a picture that is not in a three-band mode: on a
    grayscale picture the normalisation raises and the transform returns no
    sample, hence no resized picture. *)
Lemma transform_resized_224_counterexample :
  wf_image gray_2x1 /\
  SkinDiseaseTransform_call nearest 0 gray_2x1 false = Raise RuntimeError.
Proof.
  split.
  - split; [reflexivity|]. repeat constructor.
  - apply call_other_bands. simpl. lia.
Qed.

Lemma transform_flip_witness :
  (exists s, SkinDiseaseTransform_call nearest (1 / 2) rgb_2x1 false = Ok s /\
             flipped s = resized s) /\
  (exists s, SkinDiseaseTransform_call nearest (1 / 2) rgb_2x1 true = Ok s /\
             flipped s = hflip (resized s) /\
             hflip (flipped s) = resized s /\
             data (flipped s) = map (@rev pixel) (data (resized s)) /\
             nth 0 (nth 0 (data (resized s)) []) [] = [255; 0; 0]%Z /\
             nth 0 (nth 0 (data (flipped s)) []) [] = [0; 0; 255]%Z) /\
  (forall x : image, hflip (hflip x) = x).
Proof.
  destruct (transform_flip nearest (1 / 2) rgb_2x1) as (Hoff & Hon & Hinv).
  - lra.
  - reflexivity.
  - split; [exact Hoff|]. split; [|exact Hinv].
    destruct Hon as (s & Hs & Hres & Hflip & Hback & _ & _ & Hdata & _ & Hgeo).
    exists s. split; [exact Hs|]. split; [exact Hflip|].
    split; [exact Hback|]. split; [exact Hdata|].
    assert (Hwf : wf_image rgb_2x1)
      by (split; [reflexivity|repeat constructor]).
    rewrite (Hgeo Hwf 0%nat 0%nat) by lia.
    rewrite Hres. split; vm_compute; reflexivity.
Defined.

(** C6 as stated fails on a picture that is not in a three-band mode: on an
    RGBA picture the transform raises with augmentation off and with it on,
    so there is no flipped picture to compare. *)
Lemma transform_flip_counterexample :
  SkinDiseaseTransform_call nearest (1 / 2) rgba_1x1 false = Raise RuntimeError /\
  SkinDiseaseTransform_call nearest (1 / 2) rgba_1x1 true = Raise RuntimeError.
Proof.
  split; apply call_other_bands; simpl; lia.
Qed.

Lemma transform_keeps_mode_witness :
  (exists s, SkinDiseaseTransform_call nearest 0 rgb_2x1 true = Ok s /\
             List.length (tensor s) = 3%nat) /\
  SkinDiseaseTransform_call nearest 0 gray_2x1 true = Raise RuntimeError.
Proof.
  split.
  - apply (transform_keeps_mode nearest 0 rgb_2x1 true). reflexivity.
  - apply (transform_keeps_mode nearest 0 gray_2x1 true). simpl. lia.
Defined.

(** C7 as stated fails on a palette picture: the picture that reaches the
    tensor conversion is still in mode P, the tensor has one channel, and
    the normalisation with the three constants raises. *)
Lemma transform_keeps_mode_counterexample :
  mode (resize nearest BILINEAR
          (resize nearest BICUBIC palette_1x1 (224, 224)%nat)
          (224, 224)%nat) = P /\
  List.length
    (ToTensor (resize nearest BILINEAR
                 (resize nearest BICUBIC palette_1x1 (224, 224)%nat)
                 (224, 224)%nat)) = 1%nat /\
  SkinDiseaseTransform_call nearest 0 palette_1x1 false = Raise RuntimeError.
Proof.
  split; [|split].
  - now rewrite !resize_mode.
  - now rewrite ToTensor_channels, !resize_mode.
  - apply call_other_bands. simpl. lia.
Qed.

(** ** The network *)

Lemma has_shape_spec (w : list (list R)) (rows cols : nat) :
  has_shape w rows cols = true <->
  List.length w = rows /\ Forall (fun row => List.length row = cols) w.
Proof.
  unfold has_shape. rewrite andb_true_iff, Nat.eqb_eq, forallb_forall, Forall_forall.
  split; intros [H1 H2]; split; auto; intros row Hrow.
  - apply Nat.eqb_eq. auto.
  - apply Nat.eqb_eq. auto.
Qed.

Lemma nn_Linear_wf (i o : nat) (w : nat -> nat -> R) (b : nat -> R) :
  wf_Linear (nn_Linear i o w b).
Proof.
  unfold wf_Linear. simpl. split.
  - apply has_shape_spec. split.
    + now rewrite length_map, length_seq.
    + apply Forall_forall. intros row Hrow.
      apply in_map_iff in Hrow. destruct Hrow as (r & <- & _).
      now rewrite length_map, length_seq.
  - now rewrite length_map, length_seq.
Qed.

Lemma load_Linear_ok (l : Linear) (w : list (list R)) (b : list R) :
  has_shape w (out_features l) (in_features l) = true ->
  List.length b = out_features l ->
  load_Linear l w b
  = Ok {| in_features := in_features l; out_features := out_features l;
          weight := w; bias := b |}.
Proof.
  intros Hw Hb. unfold load_Linear.
  now rewrite Hw, Hb, Nat.eqb_refl.
Qed.

Lemma load_Linear_wf (l l' : Linear) (w : list (list R)) (b : list R) :
  load_Linear l w b = Ok l' ->
  wf_Linear l' /\ in_features l' = in_features l /\
  out_features l' = out_features l.
Proof.
  unfold load_Linear.
  destruct (has_shape w (out_features l) (in_features l)) eqn:Hw; simpl;
    [|discriminate].
  destruct (List.length b =? out_features l)%nat eqn:Hb; [|discriminate].
  intros H. inversion H; subst. unfold wf_Linear. simpl.
  apply Nat.eqb_eq in Hb. auto.
Qed.

(** A well-shaped layer accepts every batch of [in_features]-vectors and
    answers as many [out_features]-vectors. *)
Lemma Linear_forward_ok (l : Linear) (x : list (list R)) :
  wf_Linear l ->
  Forall (fun row => List.length row = in_features l) x ->
  exists y,
    Linear_forward l x = Ok y /\
    List.length y = List.length x /\
    Forall (fun row => List.length row = out_features l) y.
Proof.
  intros [Hw Hb] Hx. unfold Linear_forward.
  assert (Hin : forallb (fun row => (List.length row =? in_features l)%nat) x
                = true).
  { apply forallb_forall. intros row Hrow. apply Nat.eqb_eq.
    rewrite Forall_forall in Hx. auto. }
  rewrite Hin. eexists. split; [reflexivity|]. split.
  - apply length_map.
  - apply Forall_forall. intros row Hrow.
    apply in_map_iff in Hrow. destruct Hrow as (r & <- & _).
    apply has_shape_spec in Hw. destruct Hw as [Hrows _].
    rewrite length_map, length_combine, Hrows, Hb. apply Nat.min_id.
Qed.

Lemma ReLU_shape (x : list (list R)) (n : nat) :
  Forall (fun row => List.length row = n) x ->
  Forall (fun row => List.length row = n) (ReLU x).
Proof.
  intros Hx. unfold ReLU. apply Forall_forall. intros row Hrow.
  apply in_map_iff in Hrow. destruct Hrow as (r & <- & Hr).
  rewrite length_map. rewrite Forall_forall in Hx. auto.
Qed.

Lemma mapi_in {A B : Type} (f : nat -> A -> B) (l : list A) (y : B) :
  In y (mapi f l) -> exists i x, In x l /\ y = f i x.
Proof.
  unfold mapi. intros Hy. apply in_map_iff in Hy.
  destruct Hy as ([i x] & <- & Hix). exists i, x. split; [|reflexivity].
  now apply in_combine_r in Hix.
Qed.

Lemma Dropout_shape (p : R) (training : bool) (keep : nat -> nat -> bool)
    (x : list (list R)) (n : nat) :
  Forall (fun row => List.length row = n) x ->
  Forall (fun row => List.length row = n) (Dropout p training keep x).
Proof.
  intros Hx. unfold Dropout. destruct training; [|exact Hx].
  apply Forall_forall. intros row Hrow.
  apply mapi_in in Hrow. destruct Hrow as (i & r & Hr & ->).
  rewrite mapi_length. rewrite Forall_forall in Hx. auto.
Qed.

Lemma Dropout_length (p : R) (training : bool) (keep : nat -> nat -> bool)
    (x : list (list R)) :
  List.length (Dropout p training keep x) = List.length x.
Proof.
  unfold Dropout. destruct training; [apply mapi_length|reflexivity].
Qed.

Lemma cat_dim1_ok (x1 x2 : list (list R)) (n1 n2 : nat) :
  List.length x1 = List.length x2 ->
  Forall (fun row => List.length row = n1) x1 ->
  Forall (fun row => List.length row = n2) x2 ->
  exists c,
    cat_dim1 x1 x2 = Ok c /\
    List.length c = List.length x1 /\
    Forall (fun row => List.length row = (n1 + n2)%nat) c.
Proof.
  intros Hlen H1 H2. unfold cat_dim1.
  rewrite Hlen, Nat.eqb_refl. eexists. split; [reflexivity|]. split.
  - rewrite length_map, length_combine, Hlen. apply Nat.min_id.
  - apply Forall_forall. intros row Hrow.
    apply in_map_iff in Hrow. destruct Hrow as ([a b] & <- & Hab). simpl.
    rewrite length_app. rewrite Forall_forall in H1, H2.
    rewrite (H1 a), (H2 b); [reflexivity| |].
    + now apply in_combine_r in Hab.
    + now apply in_combine_l in Hab.
Qed.

(** *** The values the layers compute *)

Lemma nth_map_lt {A B : Type} (f : A -> B) (l : list A) (i : nat) (d : B)
    (d' : A) :
  (i < List.length l)%nat -> nth i (map f l) d = f (nth i l d').
Proof.
  intros Hi. rewrite (nth_indep _ d (f d')) by now rewrite length_map.
  apply map_nth.
Qed.

Lemma mapi_nth {A B : Type} (f : nat -> A -> B) (l : list A) (i : nat)
    (d : B) (d' : A) :
  (i < List.length l)%nat -> nth i (mapi f l) d = f i (nth i l d').
Proof.
  intros Hi. unfold mapi.
  rewrite (nth_map_lt _ _ _ _ (0%nat, d'))
    by (rewrite length_combine, length_seq; lia).
  rewrite combine_nth by now rewrite length_seq.
  rewrite seq_nth by lia. reflexivity.
Qed.

(** The scalar product of two vectors of [n] entries, index by index. *)
Lemma dot_sum (a : list R) :
  forall (b : list R) (n : nat),
    List.length a = n -> List.length b = n ->
    dot a b = Rsum (map (fun l => nth l a 0 * nth l b 0) (seq 0 n)).
Proof.
  induction a as [|x a IH]; intros [|y b] n Ha Hb; simpl in Ha, Hb;
    subst n; try discriminate.
  - reflexivity.
  - injection Hb as Hb.
    rewrite <- cons_seq, <- seq_shift. cbn [map]. rewrite map_map.
    specialize (IH b (List.length a) eq_refl Hb).
    unfold dot in *. cbn [combine map Rsum fold_right fst snd nth].
    unfold Rsum in IH. now rewrite IH.
Qed.

(** One output of a linear layer: the weighted sum of the inputs of its
    row, plus the bias. *)
Lemma Linear_forward_entry (l : Linear) (x y : list (list R)) (i k : nat) :
  wf_Linear l ->
  Linear_forward l x = Ok y ->
  (i < List.length x)%nat ->
  (k < out_features l)%nat ->
  nth k (nth i y []) 0
  = Rsum (map (fun j => nth j (nth i x []) 0 * nth j (nth k (weight l) []) 0)
              (seq 0 (in_features l)))
    + nth k (bias l) 0.
Proof.
  intros [Hw Hb] Hy Hi Hk. unfold Linear_forward in Hy.
  destruct (forallb _ x) eqn:Hin; [|discriminate].
  inversion Hy; subst y. clear Hy.
  apply has_shape_spec in Hw. destruct Hw as [Hrows Hcols].
  rewrite (nth_map_lt _ _ _ _ []) by exact Hi.
  rewrite (nth_map_lt _ _ _ _ ([], 0))
    by (rewrite length_combine, Hrows, Hb, Nat.min_id; exact Hk).
  rewrite combine_nth by congruence. cbn [fst snd].
  f_equal. apply dot_sum.
  - rewrite forallb_forall in Hin. apply Nat.eqb_eq, Hin, nth_In, Hi.
  - rewrite Forall_forall in Hcols. apply Hcols, nth_In. lia.
Qed.

Lemma ReLU_entry (h : list (list R)) (i k : nat) :
  (i < List.length h)%nat ->
  (k < List.length (nth i h []))%nat ->
  nth k (nth i (ReLU h) []) 0 = Rmax 0 (nth k (nth i h []) 0).
Proof.
  intros Hi Hk. unfold ReLU.
  rewrite (nth_map_lt _ _ _ _ []) by exact Hi.
  now rewrite (nth_map_lt _ _ _ _ 0) by exact Hk.
Qed.

Lemma Dropout_entry (p : R) (training : bool) (keep : nat -> nat -> bool)
    (x : list (list R)) (i k : nat) :
  (i < List.length x)%nat ->
  (k < List.length (nth i x []))%nat ->
  nth k (nth i (Dropout p training keep x) []) 0
  = if training then
      if keep i k then nth k (nth i x []) 0 / (1 - p) else 0
    else nth k (nth i x []) 0.
Proof.
  intros Hi Hk. unfold Dropout. destruct training; [|reflexivity].
  rewrite (mapi_nth _ _ _ _ []) by exact Hi.
  now rewrite (mapi_nth _ _ _ _ 0) by exact Hk.
Qed.

Lemma cat_dim1_row (x1 x2 c : list (list R)) (i : nat) :
  cat_dim1 x1 x2 = Ok c ->
  (i < List.length x1)%nat ->
  nth i c [] = (nth i x1 [] ++ nth i x2 [])%list.
Proof.
  unfold cat_dim1. destruct (List.length x1 =? List.length x2)%nat eqn:E;
    [|discriminate].
  apply Nat.eqb_eq in E. intros H Hi. inversion H; subst c. clear H.
  rewrite (nth_map_lt _ _ _ _ ([], []))
    by (rewrite length_combine, <- E, Nat.min_id; exact Hi).
  now rewrite combine_nth by exact E.
Qed.

Lemma Forall_nth_length (x : list (list R)) (n i : nat) :
  Forall (fun f => List.length f = n) x ->
  (i < List.length x)%nat ->
  List.length (nth i x []) = n.
Proof.
  intros Hall Hi. rewrite Forall_forall in Hall. apply Hall, nth_In, Hi.
Qed.

Section NetworkProperties.

Variables BS Noise : Type.
Variable densenet121 : BS -> bool -> Noise -> list Tensor3 -> list (list R) * BS.
Variable efficientnet_b0 : BS -> bool -> Noise -> list Tensor3 -> list (list R) * BS.
Variables densenet121_pretrained efficientnet_b0_pretrained : BS.
Variable compatible : BS -> BS -> bool.

Lemma HybridModel_init_wf (ini : Init) (num_classes : nat) :
  wf_model
    (HybridModel_init densenet121_pretrained efficientnet_b0_pretrained
       ini num_classes)
    num_classes.
Proof.
  unfold wf_model, HybridModel_init. cbn [fc_0 fc_3].
  split; [apply nn_Linear_wf|]. split; [reflexivity|].
  split; [reflexivity|]. split; [apply nn_Linear_wf|].
  split; reflexivity.
Qed.

Lemma load_state_dict_wf (m m' : HybridModel BS) (sd : StateDict BS)
    (num_classes : nat) :
  wf_model m num_classes ->
  load_state_dict compatible m sd = Ok m' ->
  wf_model m' num_classes /\ training m' = training m.
Proof.
  intros (_ & Hi0 & Ho0 & _ & Hi3 & Ho3). unfold load_state_dict.
  destruct (compatible (sd_densenet sd) (densenet m)
            && compatible (sd_efficientnet sd) (efficientnet m));
    [|discriminate].
  destruct (load_Linear (fc_0 m) (sd_fc_0_weight sd) (sd_fc_0_bias sd))
    as [l0|] eqn:E0; [|discriminate].
  destruct (load_Linear (fc_3 m) (sd_fc_3_weight sd) (sd_fc_3_bias sd))
    as [l3|] eqn:E3; [|discriminate].
  simpl. intros H. inversion H; subst. clear H.
  apply load_Linear_wf in E0, E3.
  destruct E0 as (W0 & I0 & O0), E3 as (W3 & I3 & O3).
  split; [|reflexivity]. unfold wf_model. simpl.
  rewrite I0, I3, O0, O3. tauto.
Qed.

(** What [load_model] returns has the head of [__init__] and is in
    evaluation mode. *)
Lemma load_model_wf (ini : Init) (file : result (StateDict BS))
    (num_classes : nat) (m : HybridModel BS) :
  load_model densenet121_pretrained efficientnet_b0_pretrained compatible
    ini file num_classes = Ok m ->
  wf_model m num_classes /\ training m = false.
Proof.
  unfold load_model. destruct file as [sd|e]; [|discriminate]. simpl.
  destruct (load_state_dict compatible _ sd) as [m1|] eqn:E; [|discriminate].
  simpl. intros H. inversion H; subst. clear H.
  apply (load_state_dict_wf _ _ _ num_classes) in E;
    [|apply HybridModel_init_wf].
  destruct E as [Hwf _]. split; [exact Hwf|reflexivity].
Qed.

(** The feature widths of the two backbones with their classifiers
    replaced by the identity. *)
Hypothesis densenet121_features : forall s t nz x,
  List.length (fst (densenet121 s t nz x)) = List.length x /\
  Forall (fun f => List.length f = 1024%nat) (fst (densenet121 s t nz x)).
Hypothesis efficientnet_b0_features : forall s t nz x,
  List.length (fst (efficientnet_b0 s t nz x)) = List.length x /\
  Forall (fun f => List.length f = 1280%nat) (fst (efficientnet_b0 s t nz x)).

(** The head on a batch of 2304-vectors: 512 after fc.0, [num_classes]
    after fc.3. *)
Lemma fc_shapes (m : HybridModel BS) (num_classes : nat)
    (keep : nat -> nat -> bool) (c : list (list R)) :
  wf_model m num_classes ->
  Forall (fun f => List.length f = 2304%nat) c ->
  exists h logits,
    Linear_forward (fc_0 m) c = Ok h /\
    Forall (fun f => List.length f = 512%nat) h /\
    Linear_forward (fc_3 m) (Dropout (1 / 2) (training m) keep (ReLU h))
    = Ok logits /\
    fc m keep c = Ok logits /\
    List.length logits = List.length c /\
    Forall (fun f => List.length f = num_classes) logits.
Proof.
  intros (W0 & I0 & O0 & W3 & I3 & O3) Fc.
  destruct (Linear_forward_ok (fc_0 m) c W0) as (h & Hh & Lh & Fh);
    [now rewrite I0|].
  rewrite O0 in Fh.
  destruct (Linear_forward_ok (fc_3 m)
              (Dropout (1 / 2) (training m) keep (ReLU h)) W3)
    as (logits & Hl & Ll & Fl).
  { rewrite I3. apply Dropout_shape. now apply ReLU_shape. }
  rewrite O3 in Fl.
  exists h, logits. repeat split; try assumption.
  - unfold fc. rewrite Hh. simpl. exact Hl.
  - rewrite Ll, Dropout_length. unfold ReLU. now rewrite length_map.
Qed.

(** C4: for every input batch and every image [i] of it, [forward]
    concatenates the 1024 features of the first backbone and the 1280 of
    the second into one vector of 2304; entry [k] of the hidden vector of
    512 is the weighted sum of these 2304 with row [k] of fc.0 plus its
    bias; the hidden entries go through max(0, -) and then through the
    dropout layer (kept and doubled or zeroed in training, unchanged in
    evaluation); logit [j] is the weighted sum of the 512 results with row
    [j] of fc.3 plus its bias; and there are [num_classes] logits per
    image. *)
Theorem forward_architecture (m : HybridModel BS) (num_classes : nat)
    (nz : Noise) (keep : nat -> nat -> bool) (x : list Tensor3) :
  wf_model m num_classes ->
  let x1 := fst (densenet121 (densenet m) (training m) nz x) in
  let x2 := fst (efficientnet_b0 (efficientnet m) (training m) nz x) in
  exists c h logits,
    cat_dim1 x1 x2 = Ok c /\
    Forall (fun f => List.length f = 2304%nat) c /\
    Linear_forward (fc_0 m) c = Ok h /\
    Forall (fun f => List.length f = 512%nat) h /\
    Linear_forward (fc_3 m) (Dropout (1 / 2) (training m) keep (ReLU h))
    = Ok logits /\
    fst (forward densenet121 efficientnet_b0 m nz keep x) = Ok logits /\
    List.length logits = List.length x /\
    Forall (fun f => List.length f = num_classes) logits /\
    forall i, (i < List.length x)%nat ->
      nth i c [] = (nth i x1 [] ++ nth i x2 [])%list /\
      List.length (nth i x1 []) = 1024%nat /\
      List.length (nth i x2 []) = 1280%nat /\
      (forall k, (k < 512)%nat ->
         nth k (nth i h []) 0
         = Rsum (map (fun l => nth l (nth i c []) 0
                               * nth l (nth k (weight (fc_0 m)) []) 0)
                     (seq 0 2304))
           + nth k (bias (fc_0 m)) 0) /\
      (forall j, (j < num_classes)%nat ->
         nth j (nth i logits []) 0
         = Rsum (map (fun k =>
                        (if training m then
                           if keep i k
                           then Rmax 0 (nth k (nth i h []) 0) / (1 - 1 / 2)
                           else 0
                         else Rmax 0 (nth k (nth i h []) 0))
                        * nth k (nth j (weight (fc_3 m)) []) 0)
                     (seq 0 512))
           + nth j (bias (fc_3 m)) 0).
Proof.
  intros Hwf x1 x2.
  destruct (densenet121_features (densenet m) (training m) nz x) as [L1 F1].
  destruct (efficientnet_b0_features (efficientnet m) (training m) nz x)
    as [L2 F2].
  fold x1 in L1, F1. fold x2 in L2, F2.
  destruct (cat_dim1_ok x1 x2 1024 1280) as (c & Hc & Lc & Fc);
    [congruence|assumption|assumption|].
  change (1024 + 1280)%nat with 2304%nat in Fc.
  destruct (fc_shapes m num_classes keep c Hwf Fc)
    as (h & logits & Hh & Fh & Hl & Hfc & Ll & Fl).
  destruct Hwf as (W0 & I0 & O0 & W3 & I3 & O3).
  assert (Lh : List.length h = List.length c).
  { unfold Linear_forward in Hh. destruct (forallb _ c); [|discriminate].
    inversion Hh. apply length_map. }
  exists c, h, logits.
  split; [exact Hc|]. split; [exact Fc|]. split; [exact Hh|].
  split; [exact Fh|]. split; [exact Hl|]. split.
  { unfold forward. simpl. fold x1 x2. rewrite Hc. simpl. exact Hfc. }
  split; [congruence|]. split; [exact Fl|].
  intros i Hi.
  split; [apply (cat_dim1_row x1 x2 c i Hc); lia|].
  split; [apply Forall_nth_length; [exact F1|lia]|].
  split; [apply Forall_nth_length; [exact F2|lia]|].
  split.
  - intros k Hk.
    rewrite (Linear_forward_entry (fc_0 m) c h i k W0 Hh) by lia.
    now rewrite I0.
  - intros j Hj.
    assert (Hrow : List.length (nth i h []) = 512%nat)
      by (apply Forall_nth_length; [exact Fh|lia]).
    rewrite (Linear_forward_entry (fc_3 m) _ logits i j W3 Hl).
    + rewrite I3. f_equal. f_equal. apply map_ext_in. intros k Hk.
      apply in_seq in Hk. f_equal.
      rewrite Dropout_entry.
      * rewrite ReLU_entry by lia. reflexivity.
      * unfold ReLU. rewrite length_map. lia.
      * unfold ReLU. rewrite (nth_map_lt _ _ _ _ []) by lia.
        rewrite length_map. lia.
    + rewrite Dropout_length. unfold ReLU. rewrite length_map. lia.
    + lia.
Qed.

(** [predict] end to end: on a three-band picture, with a model whose
    head has one output per label and labels that are pairwise distinct,
    it returns the dictionary of the labels and the soft-max of the one
    logits vector [forward] answers. *)
Lemma predict_returns
    (resample : Filter -> image -> nat * nat -> nat -> nat -> pixel)
    (r u : R) (nz : Noise) (keep : nat -> nat -> bool) (img : image)
    (m : HybridModel BS) (class_names : list string) :
  wf_model m (List.length class_names) ->
  bands (mode img) = 3%nat ->
  class_names <> [] ->
  NoDup class_names ->
  exists d,
    fst (predict densenet121 efficientnet_b0 resample r u nz keep img m
           class_names) = Ok d /\
    keys d = class_names /\
    Rsum (values d) = 1.
Proof.
  intros Hwf Hb Hne Hnd. unfold predict.
  destruct (call_three_bands resample u img
              (if Rgt_dec r (1 / 2) then true else false) Hb)
    as (t & _ & Hcall).
  rewrite Hcall. cbv zeta. unfold forward. cbn [tensor fst].
  destruct (densenet121_features (densenet m) (training m) nz
              (@cons Tensor3 t nil)) as [L1 F1].
  destruct (efficientnet_b0_features (efficientnet m) (training m) nz
              (@cons Tensor3 t nil)) as [L2 F2].
  destruct (cat_dim1_ok _ _ 1024 1280 (eq_trans L1 (eq_sym L2)) F1 F2)
    as (c & Hc & Lc & Fc).
  destruct (fc_shapes m (List.length class_names) keep c Hwf Fc)
    as (h & logits & _ & _ & _ & Hfc & Ll & Fl).
  rewrite Hc. cbn [bind]. rewrite Hfc. cbn [bind].
  destruct logits as [|v [|v' rest]];
    [simpl in *; lia| |simpl in *; lia].
  inversion Fl as [|? ? Hv _]; subst.
  unfold predict_from_outputs. cbn [softmax_dim1 map].
  rewrite confidence_map_nodup;
    [|assumption|now rewrite softmax_length].
  exists (combine class_names (softmax v)). split; [reflexivity|].
  rewrite keys_combine, values_combine by now rewrite softmax_length.
  split; [reflexivity|]. apply softmax_sum.
  intros ->. destruct class_names; [congruence|discriminate].
Qed.

(** In evaluation mode a backbone draws nothing and keeps its state. *)
Hypothesis densenet121_eval : forall s nz nz' x,
  densenet121 s false nz x = (fst (densenet121 s false nz' x), s).
Hypothesis efficientnet_b0_eval : forall s nz nz' x,
  efficientnet_b0 s false nz x = (fst (efficientnet_b0 s false nz' x), s).

Lemma forward_eval (m : HybridModel BS) (nz nz' : Noise)
    (keep keep' : nat -> nat -> bool) (x : list Tensor3) :
  training m = false ->
  forward densenet121 efficientnet_b0 m nz keep x
  = (fst (forward densenet121 efficientnet_b0 m nz' keep' x), m).
Proof.
  intros Ht. destruct m as [d e l0 l3 t]. simpl in Ht. subst t.
  unfold forward, fc. simpl.
  rewrite (densenet121_eval d nz nz' x).
  rewrite (efficientnet_b0_eval e nz nz' x). simpl.
  reflexivity.
Qed.

(** C8: on a model returned by [load_model], [forward] returns logits,
    leaves the model as it was, and returns the same logits on a second
    call with the same input, whatever the random draws on offer. *)
Theorem forward_deterministic (ini : Init) (file : result (StateDict BS))
    (num_classes : nat) (m : HybridModel BS) (x : list Tensor3) :
  load_model densenet121_pretrained efficientnet_b0_pretrained compatible
    ini file num_classes = Ok m ->
  forall (nz nz' : Noise) (keep keep' : nat -> nat -> bool),
    let first := forward densenet121 efficientnet_b0 m nz keep x in
    let second := forward densenet121 efficientnet_b0 (snd first) nz' keep' x in
    (exists logits, fst first = Ok logits) /\
    snd first = m /\
    fst second = fst first /\
    snd second = m.
Proof.
  intros Hload nz nz' keep keep' first second.
  apply load_model_wf in Hload. destruct Hload as [Hwf Ht].
  assert (H1 : first = (fst (forward densenet121 efficientnet_b0 m nz keep x), m))
    by (apply forward_eval; exact Ht).
  assert (Hs : snd first = m) by (rewrite H1; reflexivity).
  assert (H2 : second = (fst first, m)).
  { unfold second. rewrite Hs. apply forward_eval. exact Ht. }
  split; [|split; [exact Hs|split; rewrite H2; reflexivity]].
  destruct (densenet121_features (densenet m) (training m) nz x) as [L1 F1].
  destruct (efficientnet_b0_features (efficientnet m) (training m) nz x)
    as [L2 F2].
  destruct (cat_dim1_ok _ _ 1024 1280 (eq_trans L1 (eq_sym L2)) F1 F2)
    as (c & Hc & _ & Fc).
  destruct (fc_shapes m num_classes keep c Hwf Fc)
    as (h & logits & _ & _ & _ & Hfc & _).
  exists logits. unfold first, forward. simpl. rewrite Hc. exact Hfc.
Qed.

End NetworkProperties.

Lemma flat_backbone_features (n : nat) :
  forall (s : unit) (t : bool) (nz : unit) (x : list Tensor3),
    List.length (fst (flat_backbone n s t nz x)) = List.length x /\
    Forall (fun f => List.length f = n) (fst (flat_backbone n s t nz x)).
Proof.
  intros s t nz x. unfold flat_backbone. simpl. split.
  - apply length_map.
  - apply Forall_forall. intros f Hf.
    apply in_map_iff in Hf. destruct Hf as (y & <- & _).
    apply repeat_length.
Qed.

Lemma flat_backbone_eval (n : nat) :
  forall (s : unit) (nz nz' : unit) (x : list Tensor3),
    flat_backbone n s false nz x = (fst (flat_backbone n s false nz' x), s).
Proof. reflexivity. Qed.

Lemma zero_state_dict_loads :
  load_model tt tt (fun _ _ => true) zero_init (Ok (zero_state_dict 2)) 2
  = Ok zero_loaded.
Proof.
  unfold load_model. cbn [bind]. unfold load_state_dict. cbn [andb].
  unfold zero_state_dict at 1 2 3 4.
  cbn [sd_fc_0_weight sd_fc_0_bias sd_fc_3_weight sd_fc_3_bias].
  unfold HybridModel_init. cbn [fc_0 fc_3 densenet efficientnet training].
  rewrite !load_Linear_ok; try apply nn_Linear_wf.
  reflexivity.
Qed.

Lemma forward_architecture_witness :
  wf_model zero_model 2 /\
  exists h logits,
    fst (forward (flat_backbone 1024) (flat_backbone 1280) zero_model tt
           keep_all [[]]) = Ok logits /\
    List.length logits = 1%nat /\
    Forall (fun f => List.length f = 2%nat) logits /\
    forall j, (j < 2)%nat ->
      nth j (nth 0 logits []) 0
      = Rsum (map (fun k =>
                     (if training zero_model then
                        if keep_all 0%nat k
                        then Rmax 0 (nth k (nth 0 h []) 0) / (1 - 1 / 2)
                        else 0
                      else Rmax 0 (nth k (nth 0 h []) 0))
                     * nth k (nth j (weight (fc_3 zero_model)) []) 0)
                  (seq 0 512))
        + nth j (bias (fc_3 zero_model)) 0.
Proof.
  split; [apply HybridModel_init_wf|].
  destruct (forward_architecture unit unit
              (flat_backbone 1024) (flat_backbone 1280)
              (flat_backbone_features 1024) (flat_backbone_features 1280)
              zero_model 2%nat tt keep_all [[]]
              (HybridModel_init_wf unit tt tt zero_init 2))
    as (c & h & logits & _ & _ & _ & _ & _ & Hf & Hlen & Hall & Hval).
  exists h, logits. split; [exact Hf|]. split; [exact Hlen|].
  split; [exact Hall|].
  intros j Hj.
  destruct (Hval 0%nat (Nat.lt_0_succ 0)) as (_ & _ & _ & _ & Hlogit).
  exact (Hlogit j Hj).
Defined.

Lemma forward_deterministic_witness :
  load_model tt tt (fun _ _ => true) zero_init (Ok (zero_state_dict 2)) 2
  = Ok zero_loaded /\
  forall (keep keep' : nat -> nat -> bool),
    let first := forward (flat_backbone 1024) (flat_backbone 1280)
                   zero_loaded tt keep [[]] in
    let second := forward (flat_backbone 1024) (flat_backbone 1280)
                    (snd first) tt keep' [[]] in
    (exists logits, fst first = Ok logits) /\
    snd first = zero_loaded /\
    fst second = fst first /\
    snd second = zero_loaded.
Proof.
  split; [exact zero_state_dict_loads|].
  intros keep keep'.
  exact (forward_deterministic unit unit
           (flat_backbone 1024) (flat_backbone 1280) tt tt (fun _ _ => true)
           (flat_backbone_features 1024) (flat_backbone_features 1280)
           (flat_backbone_eval 1024) (flat_backbone_eval 1280)
           zero_init (Ok (zero_state_dict 2)) 2%nat zero_loaded [[]]
           zero_state_dict_loads tt tt keep keep').
Defined.

(** ** Resolving the weight file *)

(** Splits a goal about the outcome of a call into its parts and closes
    each by the equations at hand. *)
Ltac settle :=
  repeat match goal with
         | |- _ /\ _ => split
         | |- forall _, _ => intro
         | H : Ok _ = Ok _ |- _ => inversion H; subst; clear H
         | H : Raise _ = Ok _ |- _ => discriminate H
         | H : false = true |- _ => discriminate H
         end;
  try reflexivity; try lia.

Section DownloadProperties.

Variable remote : nat -> fetch.

Lemma download_model_wf (w : world) :
  wf_world w -> wf_world (snd (download_model remote w)).
Proof.
  intros Hw. unfold download_model, download_model_body, gdown_download.
  destruct (cached w) eqn:Ec; [exact Hw|].
  destruct (path_exists w output); simpl; [now right|].
  destruct (remote (calls w)); simpl; unfold wf_world; simpl; auto.
Qed.

(** C9, as amended: when the local file exists, the body of
    [download_model] and its memoised form fetch nothing and return the
    local path, leaving the files as they are.  Two successive calls
    complete at most one download; when the first call returns, the
    second returns the same path without reaching the remote side, so
    the transport is called at most once. *)
Theorem download_model_idempotent (w : world) :
  wf_world w ->
  let r1 := download_model remote w in
  let r2 := download_model remote (snd r1) in
  (path_exists w output = true ->
   download_model_body remote w = (Ok output, w) /\
   fst r1 = Ok output /\
   calls (snd r1) = calls w /\
   downloads (snd r1) = downloads w /\
   files (snd r1) = files w) /\
  (downloads (snd r2) <= S (downloads w))%nat /\
  (forall v, fst r1 = Ok v ->
     v = output /\
     fst r2 = Ok output /\
     snd r2 = snd r1 /\
     (calls (snd r2) <= S (calls w))%nat).
Proof.
  intros Hw r1 r2. subst r1 r2.
  unfold download_model, download_model_body, gdown_download.
  destruct Hw as [Hc|Hc]; rewrite Hc.
  - destruct (path_exists w output) eqn:He; simpl.
    + settle.
    + destruct (remote (calls w)) eqn:Er; simpl; [settle|settle|].
      unfold path_exists in *. cbn [files]. rewrite He. simpl.
      destruct (remote (S (calls w))); simpl; settle.
  - simpl. try rewrite Hc. simpl.
    destruct (path_exists w output); simpl; settle.
Qed.

End DownloadProperties.

Lemma download_model_idempotent_witness :
  wf_world fresh_world /\
  path_exists (snd (download_model always_writing fresh_world)) output = true /\
  fst (download_model always_writing fresh_world) = Ok output /\
  calls (snd (download_model always_writing
                (snd (download_model always_writing fresh_world)))) = 1%nat.
Proof.
  split; [now left|]. split; [reflexivity|]. split; [reflexivity|].
  destruct (download_model_idempotent always_writing fresh_world
              (or_introl eq_refl)) as (_ & _ & H).
  destruct (H output eq_refl) as (_ & _ & Heq & _).
  rewrite Heq. reflexivity.
Defined.

(** C9 as stated fails when the first fetch raises: nothing is written or
    memoised, and the second call reaches the remote side again. *)
Lemma download_model_idempotent_counterexample :
  fst (download_model always_failing fresh_world) = Raise FetchError /\
  calls (snd (download_model always_failing
                (snd (download_model always_failing fresh_world)))) = 2%nat.
Proof. split; reflexivity. Qed.

(** * Further properties *)

(** ** The dictionary of [predict], whatever the labels *)

Lemma dict_set_keys_in (d : dict) (k : string) (v : R) (k' : string) :
  In k' (keys (dict_set d k v)) <-> k' = k \/ In k' (keys d).
Proof.
  induction d as [|[k0 v0] d IH]; simpl.
  - intuition.
  - destruct (String.eqb_spec k0 k) as [->|Hne]; simpl.
    + intuition.
    + rewrite IH. intuition.
Qed.

Lemma dict_set_keys_nodup (d : dict) (k : string) (v : R) :
  NoDup (keys d) -> NoDup (keys (dict_set d k v)).
Proof.
  induction d as [|[k0 v0] d IH]; simpl; intros Hnd.
  - constructor; [intros []|constructor].
  - inversion Hnd as [|? ? Hnotin Hnd']; subst.
    destruct (String.eqb_spec k0 k) as [->|Hne]; simpl.
    + now constructor.
    + constructor; [|now apply IH].
      rewrite dict_set_keys_in. intros [->|Hin]; [congruence|contradiction].
Qed.

Lemma dict_set_values_in (d : dict) (k : string) (v p : R) :
  In p (values (dict_set d k v)) -> p = v \/ In p (values d).
Proof.
  induction d as [|[k0 v0] d IH]; simpl.
  - intuition.
  - destruct (String.eqb k0 k); simpl; intuition.
Qed.

Lemma dict_set_not_nil (d : dict) (k : string) (v : R) : dict_set d k v <> [].
Proof.
  destruct d as [|[k0 v0] d]; simpl; [discriminate|].
  destruct (String.eqb k0 k); discriminate.
Qed.

Lemma fold_store_keys (class_names : list string) (row : list R)
    (indices : list nat) :
  forall acc,
    NoDup (keys acc) ->
    NoDup (keys (fold_left (store class_names row) indices acc)) /\
    (forall k,
       In k (keys (fold_left (store class_names row) indices acc)) <->
       In k (keys acc) \/ exists i, In i indices /\ nth i class_names "" = k).
Proof.
  induction indices as [|i rest IH]; intros acc Hnd; simpl.
  - split; [exact Hnd|]. intros k. split; [now left|].
    intros [H|(i & [] & _)]. exact H.
  - destruct (IH (store class_names row acc i)) as [Hnd' Hin].
    { unfold store. now apply dict_set_keys_nodup. }
    split; [exact Hnd'|]. intros k. rewrite Hin. unfold store.
    rewrite dict_set_keys_in. split.
    + intros [[->|H]|(j & Hj & Hk)].
      * right. exists i. split; [now left|reflexivity].
      * now left.
      * right. exists j. split; [now right|exact Hk].
    + intros [H|(j & [->|Hj] & Hk)].
      * left. now right.
      * left. left. now symmetry.
      * right. exists j. split; assumption.
Qed.

Lemma fold_store_values (class_names : list string) (row : list R)
    (indices : list nat) :
  forall acc p,
    Forall (fun i => (i < List.length row)%nat) indices ->
    In p (values (fold_left (store class_names row) indices acc)) ->
    In p (values acc) \/ In p row.
Proof.
  induction indices as [|i rest IH]; intros acc p Hall Hp; simpl in Hp.
  - now left.
  - inversion Hall as [|? ? Hi Hrest]; subst.
    destruct (IH _ _ Hrest Hp) as [H|H]; [|now right].
    unfold store in H. apply dict_set_values_in in H.
    destruct H as [->|H]; [right; now apply nth_In|now left].
Qed.

(** When the comprehension returns, the row has an entry for every label. *)
Lemma confidence_map_ok_length (class_names : list string) (row : list R)
    (d : dict) :
  confidence_map class_names [row] = Ok d ->
  (List.length class_names <= List.length row)%nat /\
  d = fold_left (store class_names row) (seq 0 (List.length class_names)) [].
Proof.
  intros Hd.
  destruct (Nat.lt_ge_cases (List.length row) (List.length class_names))
    as [Hlt|Hge].
  - unfold confidence_map in Hd.
    rewrite comprehension_out_of_range in Hd; [discriminate| |].
    + apply seq_lt. intros; lia.
    + apply Exists_exists. exists (List.length row). split; [|lia].
      apply in_seq. lia.
  - split; [exact Hge|]. unfold confidence_map in Hd.
    rewrite comprehension_in_range in Hd by (apply seq_lt; intros; lia).
    now inversion Hd.
Qed.

(** X1: whatever the labels (repeated or not), as soon as there is a
    probability for every label the comprehension returns a dictionary
    whose keys are pairwise distinct and are exactly the labels that occur
    in the list; it has at most as many entries as there are labels. *)
Theorem confidence_map_keys (class_names : list string) (row : list R) :
  (List.length class_names <= List.length row)%nat ->
  exists d,
    confidence_map class_names [row] = Ok d /\
    NoDup (keys d) /\
    (forall k, In k (keys d) <-> In k class_names) /\
    (List.length d <= List.length class_names)%nat.
Proof.
  intros Hlen.
  exists (fold_left (store class_names row) (seq 0 (List.length class_names)) []).
  destruct (fold_store_keys class_names row (seq 0 (List.length class_names)) [])
    as [Hnd Hin]; [constructor|].
  split; [|split; [exact Hnd|split]].
  - unfold confidence_map. apply comprehension_in_range.
    apply seq_lt. intros; lia.
  - intros k. rewrite Hin. simpl. split.
    + intros [[]|(i & Hi & <-)]. apply nth_In. apply in_seq in Hi. lia.
    + intros Hk. right. destruct (In_nth _ _ "" Hk) as (i & Hi & Hnth).
      exists i. split; [apply in_seq; lia|exact Hnth].
  - pose proof (fold_store_length class_names row
                  (seq 0 (List.length class_names)) []) as H.
    rewrite length_seq in H. simpl in H. lia.
Qed.

Lemma confidence_map_keys_witness :
  exists d,
    confidence_map ["acne"; "eczema"; "acne"] [[1 / 2; 1 / 4; 1 / 4]] = Ok d /\
    NoDup (keys d) /\
    (forall k, In k (keys d) <-> In k ["acne"; "eczema"; "acne"]) /\
    (List.length d <= 3)%nat.
Proof.
  apply (confidence_map_keys ["acne"; "eczema"; "acne"] [1 / 2; 1 / 4; 1 / 4]).
  simpl. lia.
Defined.

(** ** The values are probabilities *)

Lemma exp_le_exp_sum (v : list R) (x : R) : In x v -> exp x <= exp_sum v.
Proof.
  unfold exp_sum. induction v as [|y v IH]; simpl; [intros []|].
  assert (H0 : 0 <= Rsum (map exp v)).
  { clear. induction v as [|z v IH]; simpl; [lra|].
    pose proof (exp_pos z). lra. }
  intros [->|Hx].
  - lra.
  - specialize (IH Hx). pose proof (exp_pos y). lra.
Qed.

Lemma softmax_range (v : list R) (p : R) :
  In p (softmax v) -> 0 < p <= 1.
Proof.
  unfold softmax. intros Hp. apply in_map_iff in Hp.
  destruct Hp as (x & <- & Hx).
  pose proof (exp_pos x) as Hpos.
  pose proof (exp_le_exp_sum v x Hx) as Hle.
  assert (Hs : 0 < exp_sum v) by lra.
  split.
  - now apply Rdiv_lt_0_compat.
  - apply Rmult_le_reg_r with (exp_sum v); [exact Hs|].
    unfold Rdiv. rewrite Rmult_assoc, Rinv_l by lra. lra.
Qed.

(** X2: every confidence [predict] puts in its dictionary is a probability:
    it lies between 0 and 1. *)
Theorem predict_values_range (class_names : list string) (v : list R)
    (d : dict) :
  predict_from_outputs [v] class_names = Ok d ->
  forall k p, In (k, p) d -> 0 <= p <= 1.
Proof.
  unfold predict_from_outputs. simpl. intros Hd k p Hin.
  apply confidence_map_ok_length in Hd. destruct Hd as [Hlen ->].
  assert (Hp : In p (values (fold_left (store class_names (softmax v))
                               (seq 0 (List.length class_names)) []))).
  { unfold values. apply in_map_iff. exists (k, p). split; [reflexivity|exact Hin]. }
  apply fold_store_values in Hp.
  - destruct Hp as [[]|Hp]. apply softmax_range in Hp. lra.
  - apply seq_lt. intros; lia.
Qed.

Lemma predict_values_range_witness :
  predict_from_outputs [[0; 0]] ["acne"; "acne"]
  = Ok [("acne", exp 0 / exp_sum [0; 0])] /\
  0 <= exp 0 / exp_sum [0; 0] <= 1.
Proof.
  split; [reflexivity|].
  apply (predict_values_range ["acne"; "acne"] [0; 0]
           [("acne", exp 0 / exp_sum [0; 0])] eq_refl "acne").
  now left.
Defined.

(** ** Which label [main] picks *)

(** [max] returns the first entry of greatest value: every entry before it
    is strictly smaller. *)
Lemma max_items_first (items : dict) :
  forall best,
    exists i,
      nth_error (best :: items) i = Some (max_items best items) /\
      (forall j x, (j < i)%nat -> nth_error (best :: items) j = Some x ->
                   snd x < snd (max_items best items)).
Proof.
  induction items as [|x items IH]; intros best.
  - exists 0%nat. split; [reflexivity|]. intros j y Hj. lia.
  - simpl max_items. destruct (Rlt_dec (snd best) (snd x)) as [Hlt|Hge].
    + destruct (IH x) as (i & Hi & Hbefore).
      exists (S i). split; [exact Hi|].
      intros [|j] y Hj Hy.
      * inversion Hy; subst.
        destruct (max_items_spec items x) as [_ Hmax].
        specialize (Hmax x (or_introl eq_refl)). lra.
      * apply (Hbefore j); [lia|exact Hy].
    + destruct (IH best) as ([|i] & Hi & Hbefore).
      * exists 0%nat. split; [exact Hi|]. intros j y Hj. lia.
      * exists (S (S i)). split; [exact Hi|].
        assert (Hb : snd best < snd (max_items best items))
          by (apply (Hbefore 0%nat); [lia|reflexivity]).
        intros [|[|j]] y Hj Hy.
        -- now inversion Hy; subst.
        -- inversion Hy; subst. lra.
        -- apply (Hbefore (S j)); [lia|exact Hy].
Qed.

(** X3: on a non-empty dictionary [main] picks the first entry of
    greatest confidence: the entry it reports stands in the dictionary,
    every entry before it has a strictly smaller confidence and no entry
    has a greater one, so among equal confidences the first label wins. *)
Theorem analyse_picks_first_greatest (conf : dict) :
  conf <> [] ->
  exists d i,
    analyse conf = Ok d /\
    nth_error conf i = Some (predicted_class d, max_confidence d) /\
    (forall j k p, (j < i)%nat -> nth_error conf j = Some (k, p) ->
                   p < max_confidence d) /\
    (forall k p, In (k, p) conf -> p <= max_confidence d).
Proof.
  destruct conf as [|it rest]; [congruence|]. intros _.
  destruct (max_items_first rest it) as (i & Hi & Hbefore).
  destruct (max_items_spec rest it) as [_ Hmax].
  eexists. exists i. split; [reflexivity|]. cbn [predicted_class max_confidence].
  split; [now rewrite <- surjective_pairing|]. split.
  - intros j k p Hj Hjp. exact (Hbefore j (k, p) Hj Hjp).
  - intros k p Hin. exact (Hmax (k, p) Hin).
Qed.

Lemma analyse_picks_first_greatest_witness :
  exists d i,
    analyse [("acne", 1 / 2); ("eczema", 1 / 2)] = Ok d /\
    nth_error [("acne", 1 / 2); ("eczema", 1 / 2)] i
    = Some (predicted_class d, max_confidence d) /\
    predicted_class d = "acne".
Proof.
  destruct (analyse_picks_first_greatest
              [("acne", 1 / 2); ("eczema", 1 / 2)])
    as (d & i & Hd & Hi & Hbefore & Hmax); [discriminate|].
  exists d, i. split; [exact Hd|]. split; [exact Hi|].
  destruct i as [|[|i]].
  - now inversion Hi.
  - specialize (Hbefore 0%nat "acne" (1 / 2) (Nat.lt_0_succ 0) eq_refl).
    inversion Hi as [[Hk Hp]]. rewrite <- Hp in Hbefore. lra.
  - destruct i; discriminate.
Defined.

(** X4: the analysis of the dictionary [predict] built fails exactly when
    there is no label at all: [max] of an empty sequence is a
    [ValueError]; with at least one label it returns a diagnosis. *)
Theorem analyse_fails_iff_no_label (class_names : list string)
    (row : list R) (conf : dict) :
  confidence_map class_names [row] = Ok conf ->
  (class_names = [] -> analyse conf = Raise ValueError) /\
  (class_names <> [] -> exists d, analyse conf = Ok d).
Proof.
  intros Hconf. apply confidence_map_ok_length in Hconf.
  destruct Hconf as [_ ->]. split.
  - intros ->. reflexivity.
  - intros Hne. destruct class_names as [|k l]; [congruence|].
    simpl. 
    assert (Hnn : forall idx acc, acc <> [] ->
              fold_left (store (k :: l) row) idx acc <> []).
    { induction idx as [|i idx IH]; intros acc Hacc; simpl; [exact Hacc|].
      apply IH. apply dict_set_not_nil. }
    specialize (Hnn (seq 1 (List.length l)) (store (k :: l) row [] 0%nat)
                  (dict_set_not_nil _ _ _)).
    destruct (fold_left _ _ _) as [|it rest]; [congruence|].
    eexists. reflexivity.
Qed.

Lemma analyse_fails_iff_no_label_witness :
  analyse [] = Raise ValueError /\
  exists d, analyse [("acne", 1)] = Ok d.
Proof.
  split.
  - apply (proj1 (analyse_fails_iff_no_label [] [] [] eq_refl)). reflexivity.
  - apply (proj2 (analyse_fails_iff_no_label ["acne"] [1] [("acne", 1)] eq_refl)).
    discriminate.
Defined.

(** ** Colour and advice *)

(** X5: for a label whose capitalised form is not the fallback word, the
    three tests of [main] agree: the result is written in red exactly when
    the confidence is at least 0.95, exactly when the advice block is
    shown, and the block then carries the bullets of the predicted class
    when that class is "acne" or "eczema". *)
Theorem color_and_advice_agree (conf : dict) (d : Diagnosis) :
  analyse conf = Ok d ->
  capitalize (predicted_class d) <> Neant ->
  (result_color (displayed d) = "red" <-> 95 / 100 <= max_confidence d) /\
  (result_color (displayed d) = "green" <-> conseils d = None) /\
  (95 / 100 <= max_confidence d -> predicted_class d = "acne" ->
   conseils d = Some acne_advice) /\
  (95 / 100 <= max_confidence d -> predicted_class d = "eczema" ->
   conseils d = Some eczema_advice).
Proof.
  intros Hd Hcap. unfold analyse in Hd.
  destruct (py_max conf) as [top|] eqn:Et; [|discriminate].
  simpl in Hd. inversion Hd; subst. clear Hd. simpl in *.
  unfold conseils, result_color, display_class, shows_advice, threshold. simpl.
  destruct (Rlt_dec (snd top) (95 / 100)) as [Hlt|Hge];
    destruct (Rge_dec (snd top) (95 / 100)) as [Hge'|Hlt']; try lra.
  - rewrite String.eqb_refl.
    repeat split; intros; try discriminate; try lra; auto.
  - apply String.eqb_neq in Hcap. rewrite Hcap.
    repeat split; intros; try discriminate; try lra; auto;
      match goal with H : fst top = _ |- _ => rewrite H end; reflexivity.
Qed.

Lemma color_and_advice_agree_witness :
  exists d,
    analyse [("acne", 5 / 100); ("eczema", 95 / 100)] = Ok d /\
    result_color (displayed d) = "red" /\
    conseils d = Some eczema_advice.
Proof.
  assert (Ha : analyse [("acne", 5 / 100); ("eczema", 95 / 100)]
               = Ok {| predicted_class := "eczema";
                       max_confidence := 95 / 100;
                       displayed := display_class "eczema" (95 / 100);
                       advice := shows_advice (95 / 100) |}).
  { unfold analyse. simpl. destruct (Rlt_dec (5 / 100) (95 / 100)); [|lra].
    reflexivity. }
  eexists. split; [exact Ha|].
  destruct (color_and_advice_agree _ _ Ha) as (Hred & _ & _ & Hecz).
  - vm_compute. discriminate.
  - split.
    + apply Hred. simpl. lra.
    + apply Hecz; [simpl; lra|reflexivity].
Defined.

(** ** What the transform hands to the network *)

Lemma mapi_in_lt {A B : Type} (f : nat -> A -> B) (l : list A) (y : B) :
  In y (mapi f l) ->
  exists i x, (i < List.length l)%nat /\ In x l /\ y = f i x.
Proof.
  unfold mapi. intros Hy. apply in_map_iff in Hy.
  destruct Hy as ([i x] & <- & Hix). exists i, x.
  pose proof (in_combine_l _ _ _ _ Hix) as Hi.
  apply in_seq in Hi. split; [lia|]. split; [|reflexivity].
  now apply in_combine_r in Hix.
Qed.

Lemma hflip_wf (img : image) : wf_image img -> wf_image (hflip img).
Proof.
  intros [Hrows Hcols]. unfold wf_image, width, height, hflip. simpl. split.
  - now rewrite length_map.
  - apply Forall_forall. intros row Hrow.
    apply in_map_iff in Hrow. destruct Hrow as (r & <- & Hr).
    rewrite length_rev. rewrite Forall_forall in Hcols. now apply Hcols.
Qed.

Lemma augmentation_size (u : R) (img : image) :
  size (augmentation u img) = size img.
Proof.
  unfold augmentation, RandomHorizontalFlip. now destruct (Rlt_dec u 1).
Qed.

Lemma augmentation_wf (u : R) (img : image) :
  wf_image img -> wf_image (augmentation u img).
Proof.
  intros Hwf. unfold augmentation, RandomHorizontalFlip.
  destruct (Rlt_dec u 1); [now apply hflip_wf|exact Hwf].
Qed.

(** Mirroring moves pixels along their rows and changes none. *)
Lemma augmentation_pixels (u : R) (img : image) (px : pixel) :
  (exists row, In row (data (augmentation u img)) /\ In px row) ->
  exists row, In row (data img) /\ In px row.
Proof.
  unfold augmentation, RandomHorizontalFlip.
  destruct (Rlt_dec u 1); [|auto].
  intros (row & Hrow & Hpx). simpl in Hrow.
  apply in_map_iff in Hrow. destruct Hrow as (src & <- & Hsrc).
  exists src. split; [exact Hsrc|]. now apply in_rev.
Qed.

Section TransformProperties.

Variable resample : Filter -> image -> nat * nat -> nat -> nat -> pixel.

Lemma resize_noop (flt : Filter) (img : image) (sz : nat * nat) :
  size img = sz -> resize resample flt img sz = img.
Proof.
  intros <-. unfold resize, size_eqb. now rewrite !Nat.eqb_refl.
Qed.

Lemma img_flipped_size (u : R) (img : image) (aug : bool) :
  size (img_flipped_of resample u img aug) = (224, 224)%nat.
Proof.
  unfold img_flipped_of. destruct aug; [rewrite augmentation_size|];
    apply resize_size.
Qed.

Lemma img_flipped_wf (u : R) (img : image) (aug : bool) :
  wf_image img -> wf_image (img_flipped_of resample u img aug).
Proof.
  intros Hwf. unfold img_flipped_of.
  destruct aug; [apply augmentation_wf|]; now apply resize_wf.
Qed.

(** The sample of a three-band picture, in full. *)
Lemma call_explicit (u : R) (img : image) (aug : bool) :
  bands (mode img) = 3%nat ->
  SkinDiseaseTransform_call resample u img aug
  = Ok {| original := img;
          resized := resize resample BICUBIC img (224, 224)%nat;
          flipped := img_flipped_of resample u img aug;
          tensor :=
            mapi (fun c => map (map (fun x =>
                    (x - nth c imagenet_mean 0) / nth c imagenet_std 0)))
                 (ToTensor (img_flipped_of resample u img aug)) |}.
Proof.
  intros Hb. unfold SkinDiseaseTransform_call. fold (img_flipped_of resample u img aug).
  unfold base_transform.
  rewrite (resize_noop BILINEAR _ _ (img_flipped_size u img aug)).
  rewrite Normalize_imagenet, ToTensor_channels.
  unfold img_flipped_of at 1. rewrite flipped_mode, Hb. reflexivity.
Qed.

(** X6: the [Resize] inside [base_transform] never resamples, because
    [__call__] has resized the picture already: the tensor is the
    normalisation of exactly the flipped picture the page shows, entry by
    entry (value/255 - mean) / std with the constants of its channel. *)
Theorem tensor_of_flipped (u : R) (img : image) (aug : bool) :
  bands (mode img) = 3%nat ->
  exists s,
    SkinDiseaseTransform_call resample u img aug = Ok s /\
    base_transform resample (flipped s)
    = Normalize imagenet_mean imagenet_std (ToTensor (flipped s)) /\
    Normalize imagenet_mean imagenet_std (ToTensor (flipped s))
    = Ok (tensor s) /\
    forall c y x,
      nth x (nth y (nth c (tensor s) []) []) 0
      = nth x (nth y
          (map (map (fun v => (v - nth c imagenet_mean 0)
                              / nth c imagenet_std 0))
               (nth c (ToTensor (flipped s)) [])) []) 0.
Proof.
  intros Hb. eexists. split; [apply call_explicit; exact Hb|].
  cbn [flipped tensor].
  split; [|split].
  - unfold base_transform.
    now rewrite (resize_noop BILINEAR _ _ (img_flipped_size u img aug)).
  - rewrite Normalize_imagenet, ToTensor_channels.
    unfold img_flipped_of at 1. now rewrite flipped_mode, Hb.
  - intros c y x. f_equal. f_equal.
    set (t := ToTensor (img_flipped_of resample u img aug)).
    assert (Ht : List.length t = 3%nat).
    { unfold t. rewrite ToTensor_channels. unfold img_flipped_of.
      now rewrite flipped_mode. }
    destruct t as [|t0 [|t1 [|t2 [|t3 t]]]]; try discriminate.
    destruct c as [|[|[|[|c]]]]; reflexivity.
Qed.

(** X7: for a well-formed three-band picture the tensor is 3 x 224 x 224. *)
Theorem tensor_shape (u : R) (img : image) (aug : bool) :
  wf_image img ->
  bands (mode img) = 3%nat ->
  exists s,
    SkinDiseaseTransform_call resample u img aug = Ok s /\
    List.length (tensor s) = 3%nat /\
    Forall (fun ch =>
              List.length ch = 224%nat /\
              Forall (fun row => List.length row = 224%nat) ch)
           (tensor s).
Proof.
  intros Hwf Hb. eexists. split; [apply call_explicit; exact Hb|].
  cbn [tensor].
  pose proof (img_flipped_wf u img aug Hwf) as [Hrows Hcols].
  unfold width, height in *. rewrite img_flipped_size in *. simpl in Hrows, Hcols.
  split.
  - rewrite mapi_length, ToTensor_channels. unfold img_flipped_of.
    now rewrite flipped_mode.
  - apply Forall_forall. intros ch Hch.
    apply mapi_in_lt in Hch. destruct Hch as (i & t0 & _ & Ht0 & ->).
    unfold ToTensor in Ht0. apply in_map_iff in Ht0.
    destruct Ht0 as (c & <- & _). split.
    + now rewrite !length_map.
    + apply Forall_forall. intros row Hrow.
      apply in_map_iff in Hrow. destruct Hrow as (r1 & <- & Hr1).
      apply in_map_iff in Hr1. destruct Hr1 as (r0 & <- & Hr0).
      rewrite !length_map. rewrite Forall_forall in Hcols. now apply Hcols.
Qed.

(** X8: when the band values of the resized picture are 8-bit values,
    every entry of the tensor lies between -2.12 and 2.65: the extreme
    values are -485/229 (a zero in the red channel) and 66/25 (a 255 in the
    blue channel), and the bounds leave room for the rounding of the
    floating-point tensor. *)
Theorem tensor_range (u : R) (img : image) (aug : bool) :
  bands (mode img) = 3%nat ->
  (forall row px c,
     In row (data (resize resample BICUBIC img (224, 224)%nat)) ->
     In px row -> (0 <= nth c px 0 <= 255)%Z) ->
  exists s,
    SkinDiseaseTransform_call resample u img aug = Ok s /\
    forall ch row x,
      In ch (tensor s) -> In row ch -> In x row ->
      - 212 / 100 <= x <= 265 / 100.
Proof.
  intros Hb Hrange. eexists. split; [apply call_explicit; exact Hb|].
  cbn [tensor]. intros ch row x Hch Hrow Hx.
  apply mapi_in_lt in Hch. destruct Hch as (i & t0 & Hi & Ht0 & ->).
  rewrite ToTensor_channels in Hi. unfold img_flipped_of in Hi.
  rewrite flipped_mode, Hb in Hi.
  unfold ToTensor in Ht0. apply in_map_iff in Ht0.
  destruct Ht0 as (c & <- & _).
  apply in_map_iff in Hrow. destruct Hrow as (r1 & <- & Hr1).
  apply in_map_iff in Hr1. destruct Hr1 as (r0 & <- & Hr0).
  apply in_map_iff in Hx. destruct Hx as (x1 & <- & Hx1).
  apply in_map_iff in Hx1. destruct Hx1 as (px & <- & Hpx).
  assert (Hv : (0 <= nth c px 0 <= 255)%Z).
  { assert (Hsrc : exists row,
              In row (data (resize resample BICUBIC img (224, 224)%nat)) /\
              In px row).
    { unfold img_flipped_of in Hr0. destruct aug.
      - apply (augmentation_pixels u). now exists r0.
      - now exists r0. }
    destruct Hsrc as (row & Hrow & Hin). now apply (Hrange row px c). }
  destruct Hv as [Hlo Hhi]. apply IZR_le in Hlo, Hhi.
  destruct i as [|[|[|i]]]; [| | |lia]; simpl; lra.
Qed.

(** X9: with augmentation on, the flipped picture of a well-formed
    three-band picture is again 224 x 224, and its pixel in column [x] of
    row [y] is the pixel of the resized picture in column [223 - x] of the
    same row. *)
Theorem flipped_geometry (u : R) (img : image) :
  0 <= u < 1 ->
  wf_image img ->
  bands (mode img) = 3%nat ->
  exists s,
    SkinDiseaseTransform_call resample u img true = Ok s /\
    size (flipped s) = (224, 224)%nat /\
    wf_image (flipped s) /\
    mode (flipped s) = mode img /\
    forall x y,
      (x < 224)%nat -> (y < 224)%nat ->
      nth x (nth y (data (flipped s)) []) []
      = nth (223 - x) (nth y (data (resized s)) []) [].
Proof.
  intros [_ Hu] Hwf Hb. eexists. split; [apply call_explicit; exact Hb|].
  cbn [flipped resized].
  split; [apply img_flipped_size|]. split; [now apply img_flipped_wf|].
  split; [exact (flipped_mode resample u img true)|].
  intros x y Hx Hy. unfold img_flipped_of. rewrite augmentation_flips by exact Hu.
  pose proof (resize_wf resample BICUBIC img (224, 224)%nat Hwf) as [Hrows Hcols].
  unfold width, height in *. rewrite resize_size in *. simpl in Hrows, Hcols.
  set (r := resize resample BICUBIC img (224, 224)%nat) in *.
  unfold hflip. cbn [data].
  change (@nil pixel) with (rev (@nil pixel)) at 1.
  rewrite (map_nth (@rev pixel)).
  assert (Hlen : List.length (nth y (data r) []) = 224%nat).
  { rewrite Forall_forall in Hcols. apply Hcols. apply nth_In. lia. }
  rewrite rev_nth by lia. rewrite Hlen. f_equal.
Qed.

(** X10: [show_transformations] needs three channels and nothing else: on
    a tensor with fewer it raises [IndexError], and on every sample the
    transform returns it draws the three pictures and the three channel
    maps, in this order, without raising. *)
Theorem show_transformations_draws (u : R) (img : image) (aug : bool) :
  (forall s, (List.length (tensor s) < 3)%nat ->
             show_transformations s = Raise IndexError) /\
  (forall s,
     SkinDiseaseTransform_call resample u img aug = Ok s ->
     show_transformations s
     = Ok [Picture img "Image originale";
           Picture (resized s) "Redimensionnée (224x224)";
           Picture (flipped s) "Retournement horizontal";
           Heatmap "Canal Rouge" (nth 0 (tensor s) []);
           Heatmap "Canal Vert" (nth 1 (tensor s) []);
           Heatmap "Canal Bleu" (nth 2 (tensor s) [])]).
Proof.
  split.
  - intros s Hlen. unfold show_transformations.
    destruct (tensor s) as [|t0 [|t1 [|t2 t]]]; simpl in *;
      try reflexivity; lia.
  - intros s Hs.
    destruct (Nat.eq_dec (bands (mode img)) 3) as [Hb|Hb].
    + destruct (call_three_bands resample u img aug Hb) as (t & Hlen & Hcall).
      rewrite Hcall in Hs. inversion Hs; subst. clear Hs.
      unfold show_transformations. cbn [original resized flipped tensor].
      destruct t as [|t0 [|t1 [|t2 [|t3 t]]]]; try discriminate.
      reflexivity.
    + rewrite call_other_bands in Hs by exact Hb. discriminate.
Qed.

End TransformProperties.

Lemma tensor_of_flipped_witness :
  exists s,
    SkinDiseaseTransform_call nearest 0 rgb_2x1 true = Ok s /\
    Normalize imagenet_mean imagenet_std (ToTensor (flipped s))
    = Ok (tensor s).
Proof.
  destruct (tensor_of_flipped nearest 0 rgb_2x1 true eq_refl)
    as (s & Hs & _ & Hn & _).
  exists s. split; [exact Hs|exact Hn].
Defined.

Lemma tensor_shape_witness :
  exists s,
    SkinDiseaseTransform_call nearest 0 rgb_2x1 false = Ok s /\
    List.length (tensor s) = 3%nat /\
    Forall (fun ch =>
              List.length ch = 224%nat /\
              Forall (fun row => List.length row = 224%nat) ch)
           (tensor s).
Proof.
  apply (tensor_shape nearest 0 rgb_2x1 false).
  - split; [reflexivity|]. repeat constructor.
  - reflexivity.
Defined.

(** Nearest-neighbour resampling of the two-pixel picture only ever copies
    one of its two pixels (or the empty default). *)
Lemma rgb_2x1_resized_range (row : list pixel) (px : pixel) (c : nat) :
  In row (data (resize nearest BICUBIC rgb_2x1 (224, 224)%nat)) ->
  In px row -> (0 <= nth c px 0 <= 255)%Z.
Proof.
  unfold resize.
  replace (size_eqb (size rgb_2x1) (224, 224)%nat) with false by reflexivity.
  cbn [data]. intros Hrow Hpx.
  apply in_map_iff in Hrow. destruct Hrow as (y & <- & _).
  apply in_map_iff in Hpx. destruct Hpx as (x & <- & _).
  unfold nearest.
  assert (Hpix : forall q, In q [[255; 0; 0]; [0; 0; 255]; []]%Z ->
                           (0 <= nth c q 0 <= 255)%Z).
  { intros q [<-|[<-|[<-|[]]]]; destruct c as [|[|[|[|c]]]]; simpl; lia. }
  apply Hpix.
  set (i := (x * _ / _)%nat). set (j := (y * _ / _)%nat). clearbody i j.
  unfold rgb_2x1. cbn [data].
  destruct j as [|[|j]]; destruct i as [|[|[|i]]]; simpl; auto 6.
Qed.

Lemma tensor_range_witness :
  exists s,
    SkinDiseaseTransform_call nearest (1 / 2) rgb_2x1 true = Ok s /\
    forall ch row x,
      In ch (tensor s) -> In row ch -> In x row ->
      - 212 / 100 <= x <= 265 / 100.
Proof.
  apply (tensor_range nearest (1 / 2) rgb_2x1 true).
  - reflexivity.
  - exact rgb_2x1_resized_range.
Defined.

Lemma flipped_geometry_witness :
  exists s,
    SkinDiseaseTransform_call nearest (1 / 2) rgb_2x1 true = Ok s /\
    size (flipped s) = (224, 224)%nat /\
    wf_image (flipped s) /\
    mode (flipped s) = mode rgb_2x1 /\
    forall x y,
      (x < 224)%nat -> (y < 224)%nat ->
      nth x (nth y (data (flipped s)) []) []
      = nth (223 - x) (nth y (data (resized s)) []) [].
Proof.
  apply (flipped_geometry nearest (1 / 2) rgb_2x1).
  - lra.
  - split; [reflexivity|]. repeat constructor.
  - reflexivity.
Defined.

(** ** Loading the weights *)

Section LoadingProperties.

Variable BS : Type.
Variables densenet121_pretrained efficientnet_b0_pretrained : BS.
Variable compatible : BS -> BS -> bool.

(** X11: [load_model] is strict and keeps nothing of the freshly built
    head.  A file whose head tensors do not have the shapes 512 x 2304,
    512, [num_classes] x 512 and [num_classes] is refused with a
    [RuntimeError]; the outcome does not depend on the initial values the
    layers were built with; and the model returned holds exactly the
    tensors and backbone states of the file and is in evaluation mode. *)
Theorem load_model_strict (ini ini' : Init) (sd : StateDict BS)
    (num_classes : nat) :
  load_model densenet121_pretrained efficientnet_b0_pretrained compatible
    ini (Ok sd) num_classes
  = load_model densenet121_pretrained efficientnet_b0_pretrained compatible
      ini' (Ok sd) num_classes /\
  (has_shape (sd_fc_0_weight sd) 512 2304 = false \/
   List.length (sd_fc_0_bias sd) <> 512%nat \/
   has_shape (sd_fc_3_weight sd) num_classes 512 = false \/
   List.length (sd_fc_3_bias sd) <> num_classes ->
   load_model densenet121_pretrained efficientnet_b0_pretrained compatible
     ini (Ok sd) num_classes = Raise RuntimeError) /\
  (forall m,
     load_model densenet121_pretrained efficientnet_b0_pretrained compatible
       ini (Ok sd) num_classes = Ok m ->
     densenet m = sd_densenet sd /\
     efficientnet m = sd_efficientnet sd /\
     weight (fc_0 m) = sd_fc_0_weight sd /\
     bias (fc_0 m) = sd_fc_0_bias sd /\
     weight (fc_3 m) = sd_fc_3_weight sd /\
     bias (fc_3 m) = sd_fc_3_bias sd /\
     training m = false).
Proof.
  unfold load_model, load_state_dict, HybridModel_init, load_Linear.
  cbn [bind fc_0 fc_3 densenet efficientnet training nn_Linear
       in_features out_features].
  change (1024 + 1280)%nat with 2304%nat.
  destruct (compatible (sd_densenet sd) densenet121_pretrained
            && compatible (sd_efficientnet sd) efficientnet_b0_pretrained).
  2: { split; [reflexivity|]. split; [reflexivity|discriminate]. }
  destruct (has_shape (sd_fc_0_weight sd) 512 2304) eqn:E0;
    cbn [andb bind].
  2: { split; [reflexivity|]. split; [reflexivity|discriminate]. }
  destruct (List.length (sd_fc_0_bias sd) =? 512)%nat eqn:B0; cbn [bind].
  2: { split; [reflexivity|]. split; [reflexivity|discriminate]. }
  destruct (has_shape (sd_fc_3_weight sd) num_classes 512) eqn:E3;
    cbn [andb bind].
  2: { split; [reflexivity|]. split; [reflexivity|discriminate]. }
  destruct (List.length (sd_fc_3_bias sd) =? num_classes)%nat eqn:B3;
    cbn [bind].
  2: { split; [reflexivity|]. split; [reflexivity|discriminate]. }
  apply Nat.eqb_eq in B0, B3.
  split; [reflexivity|]. split.
  - intros [H|[H|[H|H]]]; congruence.
  - intros m Hm. inversion Hm; subst. clear Hm. cbn. repeat split.
Qed.

End LoadingProperties.

(** ** One click on the page *)

Section PageProperties.

Variables BS Noise : Type.
Variable densenet121 : BS -> bool -> Noise -> list Tensor3 -> list (list R) * BS.
Variable efficientnet_b0 : BS -> bool -> Noise -> list Tensor3 -> list (list R) * BS.
Variables densenet121_pretrained efficientnet_b0_pretrained : BS.
Variable compatible : BS -> BS -> bool.
Variable resample : Filter -> image -> nat * nat -> nat -> nat -> pixel.

Hypothesis densenet121_features : forall s t nz x,
  List.length (fst (densenet121 s t nz x)) = List.length x /\
  Forall (fun f => List.length f = 1024%nat) (fst (densenet121 s t nz x)).
Hypothesis efficientnet_b0_features : forall s t nz x,
  List.length (fst (efficientnet_b0 s t nz x)) = List.length x /\
  Forall (fun f => List.length f = 1280%nat) (fst (efficientnet_b0 s t nz x)).
Hypothesis densenet121_eval : forall s nz nz' x,
  densenet121 s false nz x = (fst (densenet121 s false nz' x), s).
Hypothesis efficientnet_b0_eval : forall s nz nz' x,
  efficientnet_b0 s false nz x = (fst (efficientnet_b0 s false nz' x), s).

(** A picture the transform refuses never reaches the model. *)
Lemma predict_refused (r u : R) (nz : Noise) (keep : nat -> nat -> bool)
    (img : image) (model : HybridModel BS) (class_names : list string) :
  bands (mode img) <> 3%nat ->
  predict densenet121 efficientnet_b0 resample r u nz keep img model
    class_names = (Raise RuntimeError, model).
Proof.
  intros Hb. unfold predict. now rewrite call_other_bands.
Qed.

Lemma predict_keeps_eval_model (r u : R) (nz : Noise)
    (keep : nat -> nat -> bool) (img : image) (model : HybridModel BS)
    (class_names : list string) :
  training model = false ->
  snd (predict densenet121 efficientnet_b0 resample r u nz keep img model
         class_names) = model.
Proof.
  intros Ht. unfold predict.
  destruct (SkinDiseaseTransform_call resample u img _) as [s|e];
    [|reflexivity].
  cbv zeta. cbn [snd].
  now rewrite (forward_eval BS Noise densenet121 efficientnet_b0
                 densenet121_eval efficientnet_b0_eval model nz nz keep keep
                 [tensor s] Ht).
Qed.

(** On a three-band picture [predict] returns the labels zipped with the
    soft-max of the logits of the one image. *)
Lemma predict_softmax (r u : R) (nz : Noise) (keep : nat -> nat -> bool)
    (img : image) (m : HybridModel BS) (class_names : list string) :
  wf_model m (List.length class_names) ->
  bands (mode img) = 3%nat ->
  NoDup class_names ->
  exists v,
    List.length v = List.length class_names /\
    fst (predict densenet121 efficientnet_b0 resample r u nz keep img m
           class_names) = Ok (combine class_names (softmax v)).
Proof.
  intros Hwf Hb Hnd. unfold predict.
  destruct (call_three_bands resample u img
              (if Rgt_dec r (1 / 2) then true else false) Hb)
    as (t & _ & Hcall).
  rewrite Hcall. cbv zeta. unfold forward. cbn [tensor fst].
  destruct (densenet121_features (densenet m) (training m) nz
              (@cons Tensor3 t nil)) as [L1 F1].
  destruct (efficientnet_b0_features (efficientnet m) (training m) nz
              (@cons Tensor3 t nil)) as [L2 F2].
  destruct (cat_dim1_ok _ _ 1024 1280 (eq_trans L1 (eq_sym L2)) F1 F2)
    as (c & Hc & Lc & Fc).
  destruct (fc_shapes BS m (List.length class_names) keep c Hwf Fc)
    as (h & logits & _ & _ & _ & Hfc & Ll & Fl).
  rewrite Hc. cbn [bind]. rewrite Hfc. cbn [bind].
  destruct logits as [|v [|v' rest]];
    [simpl in *; lia| |simpl in *; lia].
  inversion Fl as [|? ? Hv _]; subst.
  exists v. split; [exact Hv|].
  unfold predict_from_outputs. cbn [softmax_dim1 map].
  apply confidence_map_nodup; [assumption|now rewrite softmax_length].
Qed.


(** X13: one click with the model [load_model] returned for the two
    labels of [main].  On a three-band picture the page shows a result: the
    word displayed is the fallback, "Acne" or "Eczema", the confidence
    printed is at least 1/2 and at most 1, the advice block is absent
    exactly when the fallback is displayed and never comes without its
    bullets.  On any other picture the page shows the error message of the
    exception raised.  The model is the same after the click in both
    cases. *)
Theorem main_analysis_page (ini : Init) (file : result (StateDict BS))
    (m : HybridModel BS) (r u : R) (nz : Noise) (keep : nat -> nat -> bool)
    (img : image) :
  load_model densenet121_pretrained efficientnet_b0_pretrained compatible
    ini file 2 = Ok m ->
  (bands (mode img) = 3%nat ->
   exists d tips,
     main_analysis densenet121 efficientnet_b0 resample r u nz keep img m
     = (Results d (result_color (displayed d)) tips, m) /\
     (displayed d = Neant \/ displayed d = "Acne" \/ displayed d = "Eczema") /\
     1 / 2 <= max_confidence d <= 1 /\
     (tips = None <-> displayed d = Neant) /\
     (tips = None <-> result_color (displayed d) = "green") /\
     tips <> Some []) /\
  (bands (mode img) <> 3%nat ->
   exists e,
     main_analysis densenet121 efficientnet_b0 resample r u nz keep img m
     = (ErrorMessage e, m)).
Proof.
  intros Hload. apply (load_model_wf BS Noise densenet121 efficientnet_b0) in Hload. destruct Hload as [Hwf Ht].
  unfold main_analysis. cbv zeta.
  rewrite (predict_keeps_eval_model r u nz keep img m class_names_main Ht).
  split.
  - intros Hb.
    destruct (predict_softmax r u nz keep img m class_names_main Hwf Hb)
      as (v & Hv & Hp).
    { repeat constructor; simpl; intuition discriminate. }
    rewrite Hp. destruct v as [|a [|b [|c v]]]; try discriminate.
    rewrite softmax_pair.
    pose proof (exp_pos a) as Ha. pose proof (exp_pos b) as Hb'.
    set (p1 := exp a / (exp a + exp b)).
    set (p2 := exp b / (exp a + exp b)).
    assert (Hsum : p1 + p2 = 1) by (unfold p1, p2; field; lra).
    assert (H1 : 0 < p1) by (apply Rdiv_lt_0_compat; lra).
    assert (H2 : 0 < p2) by (apply Rdiv_lt_0_compat; lra).
    unfold analyse, py_max. cbn [combine class_names_main bind max_items snd fst].
    destruct (Rlt_dec p1 p2) as [Hlt|Hge]; cbn [max_items bind fst snd render];
      do 2 eexists; (split; [reflexivity|]);
      cbn [displayed max_confidence predicted_class advice];
      unfold conseils, result_color, display_class, shows_advice, threshold;
      cbn [advice predicted_class].
    + destruct (Rlt_dec p2 (95 / 100)); destruct (Rge_dec p2 (95 / 100));
        try lra; repeat split; auto; try lra; try discriminate;
        try (intros H; vm_compute in H; discriminate).
    + destruct (Rlt_dec p1 (95 / 100)); destruct (Rge_dec p1 (95 / 100));
        try lra; repeat split; auto; try lra; try discriminate;
        try (intros H; vm_compute in H; discriminate).
  - intros Hb. exists RuntimeError.
    rewrite predict_refused by exact Hb. reflexivity.
Qed.

End PageProperties.


Lemma main_analysis_page_witness :
  (exists d tips,
     main_analysis (flat_backbone 1024) (flat_backbone 1280) nearest 0 0 tt
       keep_all rgb_2x1 zero_loaded
     = (Results d (result_color (displayed d)) tips, zero_loaded) /\
     1 / 2 <= max_confidence d <= 1) /\
  exists e,
    main_analysis (flat_backbone 1024) (flat_backbone 1280) nearest 0 0 tt
      keep_all gray_2x1 zero_loaded
    = (ErrorMessage e, zero_loaded).
Proof.
  destruct (main_analysis_page unit unit
              (flat_backbone 1024) (flat_backbone 1280) tt tt
              (fun _ _ => true) nearest
              (flat_backbone_features 1024) (flat_backbone_features 1280)
              (flat_backbone_eval 1024) (flat_backbone_eval 1280)
              zero_init (Ok (zero_state_dict 2)) zero_loaded 0 0 tt keep_all
              rgb_2x1 zero_state_dict_loads) as [Hok _].
  destruct (main_analysis_page unit unit
              (flat_backbone 1024) (flat_backbone 1280) tt tt
              (fun _ _ => true) nearest
              (flat_backbone_features 1024) (flat_backbone_features 1280)
              (flat_backbone_eval 1024) (flat_backbone_eval 1280)
              zero_init (Ok (zero_state_dict 2)) zero_loaded 0 0 tt keep_all
              gray_2x1 zero_state_dict_loads) as [_ Herr].
  split.
  - destruct (Hok eq_refl) as (d & tips & Hpage & _ & Hrange & _).
    exists d, tips. split; [exact Hpage|exact Hrange].
  - apply Herr. simpl. lia.
Defined.

(** ** Any number of calls of [download_model] *)

Section RepeatedDownloads.

Variable remote : nat -> fetch.

(** Once the memo is filled, every later call answers from it. *)
Lemma download_model_n_cached (n : nat) (w : world) (v : string) :
  cached w = Some v ->
  download_model_n remote n w = (repeat (Ok v) n, w).
Proof.
  intros Hc. induction n as [|n IH]; simpl; [reflexivity|].
  unfold download_model at 1 2 3. rewrite Hc. cbn [fst snd].
  now rewrite IH.
Qed.

(** One call from a world with an empty memo: either it returns the path
    and fills the memo, adding at most the weight file and at most one
    download, or the fetch raises and nothing changes but the call count. *)
Lemma download_model_step (w : world) :
  cached w = None ->
  (fst (download_model remote w) = Ok output /\
   cached (snd (download_model remote w)) = Some output /\
   (downloads (snd (download_model remote w)) <= S (downloads w))%nat /\
   (files (snd (download_model remote w)) = files w \/
    files (snd (download_model remote w)) = output :: files w)) \/
  (fst (download_model remote w) = Raise FetchError /\
   cached (snd (download_model remote w)) = None /\
   downloads (snd (download_model remote w)) = downloads w /\
   files (snd (download_model remote w)) = files w).
Proof.
  intros Hc. unfold download_model, download_model_body, gdown_download.
  rewrite Hc. destruct (path_exists w output); simpl.
  - left. auto.
  - destruct (remote (calls w)); simpl; rewrite ?Hc; [left|left|right]; auto 6.
Qed.

(** X14: however many times [download_model] is called in a row, the
    answers are a run of raised fetches followed only by the path; at most
    one download completes; no file is removed and the only file that can
    appear is the weight file. *)
Theorem download_model_n_once (n : nat) (w : world) :
  wf_world w ->
  let run := download_model_n remote n w in
  (exists k, (k <= n)%nat /\
     fst run = (repeat (Raise FetchError) k ++ repeat (Ok output) (n - k))%list) /\
  (downloads (snd run) <= S (downloads w))%nat /\
  incl (files w) (files (snd run)) /\
  (forall f, In f (files (snd run)) -> f = output \/ In f (files w)).
Proof.
  revert w. induction n as [|n IH]; intros w Hw; cbv zeta.
  - simpl. split; [exists 0%nat; split; [lia|reflexivity]|].
    split; [lia|]. split; [apply incl_refl|]. auto.
  - destruct Hw as [Hc|Hc].
    + simpl.
      destruct (download_model_step w Hc)
        as [(Hr & Hc' & Hd & Hf)|(Hr & Hc' & Hd & Hf)].
      * rewrite (download_model_n_cached n _ output Hc'). cbn [fst snd].
        rewrite Hr. split; [exists 0%nat; split; [lia|reflexivity]|].
        split; [exact Hd|].
        destruct Hf as [-> | ->]; split;
          try apply incl_refl; try (apply incl_tl, incl_refl);
          simpl; intuition.
      * destruct (IH (snd (download_model remote w)) (or_introl Hc'))
          as ((k & Hk & Hrun) & Hdn & Hincl & Hnew).
        rewrite Hr, Hrun. split.
        { exists (S k). split; [lia|reflexivity]. }
        rewrite Hd, Hf in *. auto.
    + rewrite (download_model_n_cached (S n) w output Hc). cbn [fst snd].
      split; [exists 0%nat; split; [lia|reflexivity]|].
      split; [lia|]. split; [apply incl_refl|]. auto.
Qed.

End RepeatedDownloads.

Lemma download_model_n_once_witness :
  wf_world fresh_world /\
  fst (download_model_n third_time_lucky 5 fresh_world)
  = [Raise FetchError; Raise FetchError; Ok output; Ok output; Ok output] /\
  (downloads (snd (download_model_n third_time_lucky 5 fresh_world)) <= 1)%nat.
Proof.
  split; [now left|]. split; [reflexivity|].
  apply (download_model_n_once third_time_lucky 5 fresh_world).
  now left.
Defined.

(** ** Repeated labels *)

Lemma dict_set_in_same (d : dict) (k : string) (v : R) :
  In (k, v) (dict_set d k v).
Proof.
  induction d as [|[k0 v0] d IH]; simpl; [now left|].
  destruct (String.eqb_spec k0 k) as [->|Hne]; [now left|now right].
Qed.

Lemma dict_set_in_other (d : dict) (k k' : string) (v v' : R) :
  k' <> k -> In (k, v) d -> In (k, v) (dict_set d k' v').
Proof.
  intros Hne. induction d as [|[k0 v0] d IH]; simpl; [intros []|].
  intros [Heq|Hin].
  - inversion Heq; subst.
    destruct (String.eqb_spec k k') as [->|_]; [congruence|now left].
  - destruct (String.eqb k0 k'); right; [exact Hin|now apply IH].
Qed.

Lemma fold_store_keeps (class_names : list string) (row : list R)
    (k : string) (v : R) (indices : list nat) :
  forall acc,
    Forall (fun j => nth j class_names "" <> k) indices ->
    In (k, v) acc ->
    In (k, v) (fold_left (store class_names row) indices acc).
Proof.
  induction indices as [|j rest IH]; intros acc Hall Hin; simpl.
  - exact Hin.
  - inversion Hall as [|? ? Hj Hrest]; subst.
    apply IH; [exact Hrest|]. unfold store.
    now apply dict_set_in_other.
Qed.

(** X15: when a label is repeated, the confidence kept under it is the
    probability standing at its last occurrence: an index after which the
    label does not occur again contributes its entry to the dictionary. *)
Theorem confidence_map_last_wins (class_names : list string) (row : list R)
    (i : nat) :
  (List.length class_names <= List.length row)%nat ->
  (i < List.length class_names)%nat ->
  (forall j, (i < j < List.length class_names)%nat ->
             nth j class_names "" <> nth i class_names "") ->
  exists d,
    confidence_map class_names [row] = Ok d /\
    In (nth i class_names "", nth i row 0) d.
Proof.
  intros Hlen Hi Hlast.
  exists (fold_left (store class_names row) (seq 0 (List.length class_names)) []).
  split.
  - unfold confidence_map. apply comprehension_in_range.
    apply seq_lt. intros; lia.
  - replace (List.length class_names)
      with (i + S (List.length class_names - S i))%nat by lia.
    rewrite seq_app, fold_left_app. simpl.
    apply fold_store_keeps.
    + apply Forall_forall. intros j Hj. apply in_seq in Hj.
      apply Hlast. lia.
    + unfold store at 1. apply dict_set_in_same.
Qed.

Lemma confidence_map_last_wins_witness :
  exists d,
    confidence_map ["acne"; "eczema"; "acne"] [[1 / 2; 1 / 4; 1 / 4]] = Ok d /\
    In ("acne", 1 / 4) d.
Proof.
  apply (confidence_map_last_wins ["acne"; "eczema"; "acne"]
           [1 / 2; 1 / 4; 1 / 4] 2).
  - simpl. lia.
  - simpl. lia.
  - simpl. intros j Hj. lia.
Defined.
